(** * Water-quality evaluation of the rainwater dashboard

    A shallow embedding of [app/lib/water-quality.js]: the threshold table
    [SENSOR_THRESHOLDS], the per-sensor classification [getSensorStatus], the
    aggregate [calculateWaterQuality] and the gauge position
    [getSafeRangePercentage]; and of the state logic of three components
    that sit beside it: the tank label [getLevelStatus], the pages of the
    history view and the toggles of the system controls.

    JavaScript numbers are IEEE 754 binary64 values; they are modelled by
    Rocq's primitive [float], whose operations are the same binary64
    operations and are specified by [FloatAxioms] over [spec_float].
    JavaScript objects used as tables are finite maps from property names
    to values, looked up through the prototype chain.  The evaluator is
    given twice: as functions over the table the source writes down, and
    as programs over a store that holds the module's mutable objects. *)

From Stdlib Require Import ZArith QArith Qpower Lqa Floats Lia Bool.
From stdpp Require Import strings gmap.

Set Warnings "-inexact-float".
Local Open Scope float_scope.

(** ** JavaScript numbers *)

Module JS.

(** [a >= b] on numbers: IEEE comparison, false as soon as one side is NaN. *)
Definition geb (a b : float) : bool := (b <=? a).

(** [Math.abs]. *)
Definition Math_abs (a : float) : float := abs a.

(** [Math.min(a, b)]: NaN if either argument is NaN; [-0] counts as smaller
    than [+0]. *)
Definition Math_min (a b : float) : float :=
  if is_nan a || is_nan b then nan
  else if (a <? b) then a
  else if (b <? a) then b
  else if get_sign a then a else b.

(** [Math.max(a, b)]: NaN if either argument is NaN; [+0] counts as larger
    than [-0]. *)
Definition Math_max (a b : float) : float :=
  if is_nan a || is_nan b then nan
  else if (a <? b) then b
  else if (b <? a) then a
  else if get_sign a then b else a.

(** [Number.isFinite]. *)
Definition isFinite (a : float) : bool := is_finite a.

(** The own-or-inherited members every ordinary object gets from
    [Object.prototype] (ECMAScript 20.1.3 and Annex B.2.2).  Each of them is
    a function, except [__proto__], an accessor that yields the prototype
    object itself. *)
Definition Object_prototype : list string :=
  [ "constructor"; "hasOwnProperty"; "isPrototypeOf"; "propertyIsEnumerable";
    "toLocaleString"; "toString"; "valueOf"; "__proto__";
    "__defineGetter__"; "__defineSetter__";
    "__lookupGetter__"; "__lookupSetter__" ].

Definition inherited (key : string) : bool :=
  bool_decide (key ∈ Object_prototype).

(** [o[key] = v] on an ordinary object [o] whose own properties all hold
    values of type [V]: it defines or overwrites the own property, except
    for [__proto__], whose inherited setter is called instead and ignores
    a value that is neither an object nor null. *)
Definition set_property {V} (o : gmap string V) (key : string) (v : V)
  : gmap string V :=
  if String.eqb key "__proto__" then o else <[key := v]> o.

End JS.

(** ** Data model *)

(** An entry of [SENSOR_THRESHOLDS]. *)
Record Threshold := {
  min : float;
  max : float;
  unit : string;
  name : string;
  description : string;
  safeRange : string
}.

(** [WATER_STATUS]: the three status strings ['safe'], ['warning'],
    ['unsafe']. *)
Inductive Status := SAFE | WARNING | UNSAFE.

#[global] Instance Status_eq_dec : EqDecision Status.
Proof. solve_decision. Defined.

Definition Status_eqb (a b : Status) : bool := bool_decide (a = b).

(** The own properties of the [SENSOR_THRESHOLDS] object literal. *)
Definition SENSOR_THRESHOLDS : gmap string Threshold :=
  <["ph" := {| min := 6.5; max := 8.5; unit := "pH"; name := "pH Level";
               description := "Measure of water acidity or alkalinity";
               safeRange := "6.5 - 8.5" |}]>
  (<["turbidity" := {| min := 0; max := 5; unit := "NTU"; name := "Turbidity";
               description := "Measure of water clarity";
               safeRange := "< 5 NTU" |}]>
  (<["tds" := {| min := 0; max := 500; unit := "mg/L"; name := "TDS";
               description := "Total Dissolved Solids in water";
               safeRange := "< 500 mg/L" |}]>
  (<["temperature" := {| min := 15; max := 25; unit := "°C";
               name := "Temperature";
               description := "Water temperature";
               safeRange := "15 - 25°C" |}]> ∅))).

(** What the expression [SENSOR_THRESHOLDS[sensorType]] evaluates to. *)
Inductive lookup_result :=
  | Undefined
  | Entry (t : Threshold)
  | PrototypeMember (key : string).

(** Property lookup: own properties first, then [Object.prototype]. *)
Definition SENSOR_THRESHOLDS_get (sensorType : string) : lookup_result :=
  match SENSOR_THRESHOLDS !! sensorType with
  | Some t => Entry t
  | None =>
      if JS.inherited sensorType then PrototypeMember sensorType else Undefined
  end.

(** ToBoolean: [undefined] is falsy, every object or function is truthy. *)
Definition truthy (x : lookup_result) : bool :=
  match x with
  | Undefined => false
  | _ => true
  end.

(** [threshold.min] and [threshold.max] in a numeric context.  A member of
    [Object.prototype] has no such property, the read gives [undefined] and
    ToNumber turns it into NaN.  ([undefined.min] would throw; both functions
    below return before reading anything from an undefined [threshold].) *)
Definition threshold_min (x : lookup_result) : float :=
  match x with
  | Entry t => min t
  | _ => nan
  end.

Definition threshold_max (x : lookup_result) : float :=
  match x with
  | Entry t => max t
  | _ => nan
  end.

(** ** Operations *)

(** [getSensorStatus(sensorType, value)]. *)
Definition getSensorStatus (sensorType : string) (value : float) : Status :=
  let threshold := SENSOR_THRESHOLDS_get sensorType in
  if negb (truthy threshold) then WARNING
  else if String.eqb sensorType "ph" then
    if JS.geb value (threshold_min threshold)
       && (value <=? threshold_max threshold) then SAFE
    else if JS.geb value (threshold_min threshold - 0.5)
            && (value <=? threshold_max threshold + 0.5) then WARNING
    else UNSAFE
  else if String.eqb sensorType "turbidity" || String.eqb sensorType "tds" then
    if (value <=? threshold_max threshold * 0.8) then SAFE
    else if (value <=? threshold_max threshold) then WARNING
    else UNSAFE
  else if String.eqb sensorType "temperature" then
    if JS.geb value (threshold_min threshold)
       && (value <=? threshold_max threshold) then SAFE
    else if JS.geb value (threshold_min threshold - 5)
            && (value <=? threshold_max threshold + 5) then WARNING
    else UNSAFE
  else SAFE.

(** The object returned by [calculateWaterQuality]. *)
Record WaterQuality := {
  overall : Status;
  sensors : gmap string Status;
  isPotable : bool
}.

(** One iteration of the loop of [calculateWaterQuality] over the pair
    [(statuses, overallStatus)]. *)
Definition check_sensor (st : gmap string Status * Status)
    (entry : string * float) : gmap string Status * Status :=
  let '(statuses, overallStatus) := st in
  let '(sensor, value) := entry in
  if truthy (SENSOR_THRESHOLDS_get sensor) then
    let status := getSensorStatus sensor value in
    let statuses := JS.set_property statuses sensor status in
    if Status_eqb status UNSAFE then (statuses, UNSAFE)
    else if Status_eqb status WARNING && Status_eqb overallStatus SAFE
    then (statuses, WARNING)
    else (statuses, overallStatus)
  else (statuses, overallStatus).

(** [calculateWaterQuality(sensorData)], on the list [Object.entries(sensorData)]
    of the own properties of [sensorData], in iteration order; the readings
    are numbers. *)
Definition calculateWaterQuality (sensorData : list (string * float))
  : WaterQuality :=
  let '(statuses, overallStatus) :=
    fold_left check_sensor sensorData (∅, SAFE) in
  {| overall := overallStatus;
     sensors := statuses;
     isPotable := Status_eqb overallStatus SAFE |}.

(** [getSafeRangePercentage(sensorType, value)]. *)
Definition getSafeRangePercentage (sensorType : string) (value : float)
  : float :=
  let threshold := SENSOR_THRESHOLDS_get sensorType in
  if negb (truthy threshold) then 50
  else if String.eqb sensorType "ph" then
    let range := threshold_max threshold - threshold_min threshold in
    let midpoint := threshold_min threshold + range / 2 in
    let deviation := JS.Math_abs (value - midpoint) in
    JS.Math_max 0 (JS.Math_min 100 (100 - (deviation / (range / 2)) * 100))
  else
    JS.Math_max 0 (JS.Math_min 100 ((value / threshold_max threshold) * 100)).

(** ** The rules of the specification

    The classification rules as the specification words them, over the
    rational value [x] of a reading. *)

(** Two-sided kinds: safe inside [lo, hi], warning inside the band widened
    by [slack] on both sides, unsafe otherwise. *)
Definition two_sided_rule (lo hi slack x : Q) (s : Status) : Prop :=
  match s with
  | SAFE => (lo <= x <= hi)%Q
  | WARNING => (lo - slack <= x <= hi + slack)%Q /\ ~ (lo <= x <= hi)%Q
  | UNSAFE => ~ (lo <= x <= hi)%Q /\ ~ (lo - slack <= x <= hi + slack)%Q
  end.

(** Upper-bounded kinds: safe up to 0.8 of [hi], warning up to [hi], unsafe
    above. *)
Definition upper_bounded_rule (hi x : Q) (s : Status) : Prop :=
  match s with
  | SAFE => (x <= 0.8 * hi)%Q
  | WARNING => (0.8 * hi < x <= hi)%Q
  | UNSAFE => (hi < x)%Q
  end.

(** Severity order [Safe < Warning < Unsafe]. *)
Definition severity (s : Status) : nat :=
  match s with
  | SAFE => 0
  | WARNING => 1
  | UNSAFE => 2
  end.

(** The more severe of two statuses. *)
Definition worst (a b : Status) : Status :=
  if (severity a <? severity b)%nat then b else a.

(** [clamp(lo, hi, x)], written [Math.max(lo, Math.min(hi, x))] in the
    source. *)
Definition clamp (lo hi x : float) : float :=
  JS.Math_max lo (JS.Math_min hi x).

(** The two-sided gauge formula of the specification,
    [clamp(0, 100, 100 - (|value - midpoint| / (range/2)) * 100)]. *)
Definition two_sided_position (midpoint range value : float) : float :=
  clamp 0 100 (100 - (abs (value - midpoint) / (range / 2)) * 100).

(** The one-sided gauge formula of the specification,
    [clamp(0, 100, (value / max) * 100)]. *)
Definition one_sided_position (hi value : float) : float :=
  clamp 0 100 ((value / hi) * 100).

(** The guard [if (SENSOR_THRESHOLDS[sensor])] of the aggregation loop. *)
Definition classified (sensor : string) : bool :=
  truthy (SENSOR_THRESHOLDS_get sensor).

(** The statuses of the entries that pass the guard, in iteration order. *)
Fixpoint classified_statuses (sensorData : list (string * float))
  : list Status :=
  match sensorData with
  | [] => []
  | (sensor, value) :: rest =>
      if classified sensor
      then getSensorStatus sensor value :: classified_statuses rest
      else classified_statuses rest
  end.

(** The per-sensor map after one more entry. *)
Definition record_status (statuses : gmap string Status)
    (entry : string * float) : gmap string Status :=
  if classified entry.1
  then JS.set_property statuses entry.1 (getSensorStatus entry.1 entry.2)
  else statuses.

(** ** The value of a binary64 number

    [SFrank] embeds the non-NaN binary64 values into the integers, order
    preserving: a finite [±m·2^e] (where [e >= -1074]) goes to
    [±m·2^(e+1074)], both zeros to [0], and the infinities beyond every
    finite value, to [±2^2100]. *)
Definition SFrank (x : spec_float) : Z :=
  match x with
  | S754_zero _ => 0
  | S754_nan => 0
  | S754_infinity s => cond_Zopp s (2 ^ 2100)
  | S754_finite s m e => cond_Zopp s (Z.pos m * 2 ^ (e + 1074))
  end.

Definition SFis_nan (x : spec_float) : bool :=
  match x with
  | S754_nan => true
  | _ => false
  end.

Definition rank (v : float) : Z := SFrank (Prim2SF v).

(** Finite and not zero. *)
Definition finite_nonzero (c : float) : bool :=
  match Prim2SF c with
  | S754_finite _ _ _ => true
  | _ => false
  end.

(** [m·2^e] scaled by [2^2200]: room for the exponents, down to [-2148], of
    the products and quotients of binary64 numbers before they are
    rounded. *)
Definition dval (m e : Z) : Z := m * 2 ^ (e + 2200).

(** The rational number a finite binary64 value denotes. *)
Definition F2Q (v : float) : Q := rank v # 2 ^ 1074.

(** ** The evaluator over the module's mutable objects

    [SENSOR_THRESHOLDS] and [WATER_STATUS] are [const] bindings to ordinary
    objects: the bindings cannot be reassigned, the objects can be written
    to by the module and by every importer.  Here the two objects form a
    store, and each exported function is a program that takes the store it
    is called in and gives its result together with the store it leaves.
    [Object.prototype] and [Math] are the built-in ones. *)

Module Stateful.

(** The own properties of [SENSOR_THRESHOLDS], each an entry with numeric
    [min] and [max], and the values of [WATER_STATUS.SAFE],
    [WATER_STATUS.WARNING] and [WATER_STATUS.UNSAFE]. *)
Record Store := {
  thresholds : gmap string Threshold;
  water_status : Status -> string
}.

Definition Eval (A : Type) : Type := Store -> A * Store.

#[global] Instance Eval_ret : MRet Eval := fun A a st => (a, st).

#[global] Instance Eval_bind : MBind Eval :=
  fun A B f m st => let '(a, st') := m st in f a st'.

(** [SENSOR_THRESHOLDS[sensorType]]: own properties first, then
    [Object.prototype].  The entry is read as it is at the lookup; the
    functions below call nothing between the lookup and their reads of
    [threshold.min] and [threshold.max]. *)
Definition SENSOR_THRESHOLDS_get (sensorType : string) : Eval lookup_result :=
  fun st =>
    (match thresholds st !! sensorType with
     | Some t => Entry t
     | None =>
         if JS.inherited sensorType then PrototypeMember sensorType
         else Undefined
     end, st).

(** [WATER_STATUS.SAFE], [WATER_STATUS.WARNING], [WATER_STATUS.UNSAFE]. *)
Definition WATER_STATUS_get (s : Status) : Eval string :=
  fun st => (water_status st s, st).

(** [getSensorStatus(sensorType, value)]. *)
Definition getSensorStatus (sensorType : string) (value : float)
  : Eval string :=
  threshold ← SENSOR_THRESHOLDS_get sensorType;
  if negb (truthy threshold) then WATER_STATUS_get WARNING
  else if String.eqb sensorType "ph" then
    if JS.geb value (threshold_min threshold)
       && (value <=? threshold_max threshold) then WATER_STATUS_get SAFE
    else if JS.geb value (threshold_min threshold - 0.5)
            && (value <=? threshold_max threshold + 0.5)
    then WATER_STATUS_get WARNING
    else WATER_STATUS_get UNSAFE
  else if String.eqb sensorType "turbidity" || String.eqb sensorType "tds" then
    if (value <=? threshold_max threshold * 0.8) then WATER_STATUS_get SAFE
    else if (value <=? threshold_max threshold) then WATER_STATUS_get WARNING
    else WATER_STATUS_get UNSAFE
  else if String.eqb sensorType "temperature" then
    if JS.geb value (threshold_min threshold)
       && (value <=? threshold_max threshold) then WATER_STATUS_get SAFE
    else if JS.geb value (threshold_min threshold - 5)
            && (value <=? threshold_max threshold + 5)
    then WATER_STATUS_get WARNING
    else WATER_STATUS_get UNSAFE
  else WATER_STATUS_get SAFE.

(** [getSafeRangePercentage(sensorType, value)]. *)
Definition getSafeRangePercentage (sensorType : string) (value : float)
  : Eval float :=
  threshold ← SENSOR_THRESHOLDS_get sensorType;
  if negb (truthy threshold) then mret 50
  else if String.eqb sensorType "ph" then
    let range := threshold_max threshold - threshold_min threshold in
    let midpoint := threshold_min threshold + range / 2 in
    let deviation := JS.Math_abs (value - midpoint) in
    mret (JS.Math_max 0
            (JS.Math_min 100 (100 - (deviation / (range / 2)) * 100)))
  else
    mret (JS.Math_max 0
            (JS.Math_min 100 ((value / threshold_max threshold) * 100))).

(** The object returned by [calculateWaterQuality]; the statuses are the
    strings read from [WATER_STATUS]. *)
Record WaterQuality := {
  overall : string;
  sensors : gmap string string;
  isPotable : bool
}.

(** One iteration of the loop of [calculateWaterQuality]; [statuses] and
    [overallStatus] are locals of the call. *)
Definition check_sensor (acc : gmap string string * string)
    (entry : string * float) : Eval (gmap string string * string) :=
  let '(statuses, overallStatus) := acc in
  let '(sensor, value) := entry in
  threshold ← SENSOR_THRESHOLDS_get sensor;
  if truthy threshold then
    status ← getSensorStatus sensor value;
    let statuses := JS.set_property statuses sensor status in
    unsafe ← WATER_STATUS_get UNSAFE;
    if String.eqb status unsafe then
      overallStatus ← WATER_STATUS_get UNSAFE;
      mret (statuses, overallStatus)
    else
      warning ← WATER_STATUS_get WARNING;
      if String.eqb status warning then
        safe ← WATER_STATUS_get SAFE;
        if String.eqb overallStatus safe then
          overallStatus ← WATER_STATUS_get WARNING;
          mret (statuses, overallStatus)
        else mret (statuses, overallStatus)
      else mret (statuses, overallStatus)
  else mret (statuses, overallStatus).

Fixpoint for_of {A B : Type} (body : B -> A -> Eval B) (l : list A) (b : B)
  : Eval B :=
  match l with
  | [] => mret b
  | a :: l => b' ← body b a; for_of body l b'
  end.

(** [calculateWaterQuality(sensorData)], on [Object.entries(sensorData)]. *)
Definition calculateWaterQuality (sensorData : list (string * float))
  : Eval WaterQuality :=
  overallStatus ← WATER_STATUS_get SAFE;
  acc ← for_of check_sensor sensorData (∅, overallStatus);
  safe ← WATER_STATUS_get SAFE;
  mret {| overall := acc.2;
          sensors := acc.1;
          isPotable := String.eqb acc.2 safe |}.

(** A call of one of the three exported functions, and what it returns. *)
Inductive Call :=
  | Call_getSensorStatus (sensorType : string) (value : float)
  | Call_getSafeRangePercentage (sensorType : string) (value : float)
  | Call_calculateWaterQuality (sensorData : list (string * float)).

Inductive Returned :=
  | Returned_status (s : string)
  | Returned_number (p : float)
  | Returned_quality (q : WaterQuality).

Definition call (c : Call) : Eval Returned :=
  match c with
  | Call_getSensorStatus k v =>
      s ← getSensorStatus k v; mret (Returned_status s)
  | Call_getSafeRangePercentage k v =>
      p ← getSafeRangePercentage k v; mret (Returned_number p)
  | Call_calculateWaterQuality d =>
      q ← calculateWaterQuality d; mret (Returned_quality q)
  end.

(** A sequence of calls, one after the other, each in the store the one
    before left. *)
Fixpoint calls (cs : list Call) : Eval (list Returned) :=
  match cs with
  | [] => mret []
  | c :: cs => r ← call c; rs ← calls cs; mret (r :: rs)
  end.

(** The store the module starts with. *)
Definition WATER_STATUS (s : Status) : string :=
  match s with
  | SAFE => "safe"
  | WARNING => "warning"
  | UNSAFE => "unsafe"
  end.

Definition initial : Store :=
  {| thresholds := SENSOR_THRESHOLDS; water_status := WATER_STATUS |}.

End Stateful.

(** ** Tank level ([app/components/dashboard/tank-level.jsx]) *)

(** The status object [getLevelStatus] returns. *)
Record LevelStatus := {
  label : string;
  color : string;
  bgColor : string;
  fillColor : string
}.

(** [getLevelStatus(level)]. *)
Definition getLevelStatus (level : float) : LevelStatus :=
  if JS.geb level 75 then
    {| label := "Full"; color := "text-green-600 dark:text-green-400";
       bgColor := "bg-green-500"; fillColor := "from-green-400 to-green-600" |}
  else if JS.geb level 50 then
    {| label := "Good"; color := "text-blue-600 dark:text-blue-400";
       bgColor := "bg-blue-500"; fillColor := "from-blue-400 to-blue-600" |}
  else if JS.geb level 25 then
    {| label := "Low"; color := "text-amber-600 dark:text-amber-400";
       bgColor := "bg-amber-500"; fillColor := "from-amber-400 to-amber-600" |}
  else
    {| label := "Critical"; color := "text-red-600 dark:text-red-400";
       bgColor := "bg-red-500"; fillColor := "from-red-400 to-red-600" |}.

(** The four labels, from emptiest to fullest. *)
Definition fullness (l : string) : nat :=
  if String.eqb l "Full" then 3
  else if String.eqb l "Good" then 2
  else if String.eqb l "Low" then 1
  else 0.

(** ** History page ([app/routes/history.jsx]) *)

Module JSArray.

(** [l.slice(start, end)] with integer arguments: a negative index counts
    from the end, both indices are clipped to the array, and an empty
    range gives the empty array. *)
Definition slice {A : Type} (l : list A) (start end_ : Z) : list A :=
  let len := Z.of_nat (length l) in
  let k := if (start <? 0)%Z then Z.max (len + start) 0
           else Z.min start len in
  let final := if (end_ <? 0)%Z then Z.max (len + end_) 0
               else Z.min end_ len in
  take (Z.to_nat (final - k)) (drop (Z.to_nat k) l).

End JSArray.

Definition logsPerPage : Z := 5.

(** [Math.ceil(filteredLogs.length / logsPerPage)]: the quotient of an
    array length by 5, rounded up.  An array length is below [2^32], so
    the binary64 quotient is within [2^-20] of the rational one and has
    the same ceiling. *)
Definition totalPages {A : Type} (filteredLogs : list A) : Z :=
  ((Z.of_nat (length filteredLogs) + logsPerPage - 1) / logsPerPage)%Z.

(** [filteredLogs.slice((currentPage - 1) * logsPerPage,
    currentPage * logsPerPage)]. *)
Definition paginatedLogs {A : Type} (filteredLogs : list A)
    (currentPage : Z) : list A :=
  JSArray.slice filteredLogs ((currentPage - 1) * logsPerPage)%Z
                (currentPage * logsPerPage)%Z.

(** The updaters of the two page buttons:
    [p => Math.max(1, p - 1)] and [p => Math.min(totalPages, p + 1)]. *)
Definition previousPage (p : Z) : Z := Z.max 1 (p - 1).
Definition nextPage (total p : Z) : Z := Z.min total (p + 1).

(** The two ends of the caption "Showing a to b of n logs". *)
Definition showingFrom (currentPage : Z) : Z :=
  ((currentPage - 1) * logsPerPage + 1)%Z.
Definition showingTo {A : Type} (filteredLogs : list A) (currentPage : Z)
  : Z :=
  Z.min (currentPage * logsPerPage) (Z.of_nat (length filteredLogs)).

(** The page numbers [1 .. n]. *)
Definition pageNumbers (n : Z) : list Z :=
  map (fun i => Z.of_nat (S i)) (seq 0 (Z.to_nat n)).

(** The two page buttons, and the page after a click and after a sequence
    of clicks. *)
Inductive PageButton := Previous | Next.

Definition click (total : Z) (p : Z) (b : PageButton) : Z :=
  match b with
  | Previous => previousPage p
  | Next => nextPage total p
  end.

Definition clicks (total : Z) (p : Z) (bs : list PageButton) : Z :=
  fold_left (click total) bs p.

(** ** System controls ([app/components/dashboard/system-controls.jsx]) *)

(** The identifiers of the entries of [CONTROLS]. *)
Definition CONTROLS : list string := ["filter"; "uv"; "pump"].

(** The properties of [initialStatus] the component reads; [None] stands
    for a property that is missing, [undefined] or [null]. *)
Record InitialStatus := {
  filterStatus : option bool;
  uvStatus : option bool;
  pumpStatus : option bool
}.

(** The initial value of [controlStates]; [x ?? true] is [default true x]. *)
Definition initialControlStates (initialStatus : InitialStatus)
  : gmap string bool :=
  <["pump" := default true (pumpStatus initialStatus)]>
    (<["uv" := default true (uvStatus initialStatus)]>
       (<["filter" := default true (filterStatus initialStatus)]> ∅)).

(** Truthiness of [controlStates[controlId]]: the own property if there is
    one, else a member of [Object.prototype] (all of them truthy), else
    [undefined]. *)
Definition controlStates_get (controlStates : gmap string bool)
    (controlId : string) : bool :=
  match controlStates !! controlId with
  | Some b => b
  | None => JS.inherited controlId
  end.

(** [handleToggle(controlId)], called on the state the component was
    rendered with: the next value of [controlStates] and the arguments
    passed to [onControlChange] when there is one. *)
Definition handleToggle (controlStates : gmap string bool)
    (controlId : string) : gmap string bool * (string * bool) :=
  let newState := negb (controlStates_get controlStates controlId) in
  (<[controlId := newState]> controlStates, (controlId, newState)).

(** [Object.values(controlStates).filter(Boolean).length]. *)
Definition activeCount (controlStates : gmap string bool) : nat :=
  length (filter (fun b => b = true) (map_to_list controlStates).*2).

(** The state after a sequence of toggles, the component rendering again
    after each of them. *)
Definition toggles (controlStates : gmap string bool)
    (controlIds : list string) : gmap string bool :=
  fold_left (fun cs controlId => (handleToggle cs controlId).1)
            controlIds controlStates.

(** The updater [handleToggle(controlId)] hands to [setControlStates],
    [(prev) => ({ ...prev, [controlId]: newState })]: [newState] comes from
    the [controlStates] of the render the handler belongs to, the rest
    from the state [prev] the updater is applied to. *)
Definition handleToggle_updater (controlStates : gmap string bool)
    (controlId : string) (prev : gmap string bool) : gmap string bool :=
  let newState := negb (controlStates_get controlStates controlId) in
  <[controlId := newState]> prev.

(** The state after a sequence of toggles that all come from one render
    with state [controlStates]: the updaters are queued and applied in
    order, each to the result of the one before. *)
Definition toggles_in_one_render (controlStates : gmap string bool)
    (controlIds : list string) : gmap string bool :=
  fold_left (fun prev controlId =>
               handleToggle_updater controlStates controlId prev)
            controlIds controlStates.

(** ** Evaluation on the readings the spec lists *)

Example ph_samples :
  getSensorStatus "ph" 6.5 = SAFE /\ getSensorStatus "ph" 6.0 = WARNING
  /\ getSensorStatus "ph" 5.9 = UNSAFE.
Proof. repeat split; reflexivity. Qed.

Example temperature_samples :
  getSensorStatus "temperature" 25 = SAFE
  /\ getSensorStatus "temperature" 29 = WARNING
  /\ getSensorStatus "temperature" 31 = UNSAFE.
Proof. repeat split; reflexivity. Qed.

Example turbidity_samples :
  getSensorStatus "turbidity" 4.0 = SAFE
  /\ getSensorStatus "turbidity" 4.5 = WARNING
  /\ getSensorStatus "turbidity" 5.1 = UNSAFE.
Proof. repeat split; reflexivity. Qed.

Example tds_samples :
  getSensorStatus "tds" 400 = SAFE /\ getSensorStatus "tds" 450 = WARNING
  /\ getSensorStatus "tds" 600 = UNSAFE.
Proof. repeat split; reflexivity. Qed.

Example mock_reading_set :
  let r := calculateWaterQuality
             [("ph", 7.2); ("turbidity", 2.5); ("tds", 245);
              ("temperature", 22.5)] in
  overall r = SAFE /\ isPotable r = true.
Proof. split; reflexivity. Qed.

Example turbid_reading_set :
  let r := calculateWaterQuality [("ph", 7.2); ("turbidity", 6.0)] in
  overall r = UNSAFE /\ isPotable r = false.
Proof. split; reflexivity. Qed.

Example percentage_samples :
  getSafeRangePercentage "ph" 7.5 = 100
  /\ getSafeRangePercentage "turbidity" 5.0 = 100
  /\ getSafeRangePercentage "turbidity" 10.0 = 100.
Proof. repeat split; reflexivity. Qed.

(** ** Order of binary64 values

    The comparisons of the primitive floats are the comparisons of the
    integers [rank] assigns, hence of the rationals [F2Q] assigns to finite
    values. *)

Section FloatOrder.
Local Open Scope Z_scope.

Lemma digits2_pos_size m : digits2_pos m = Pos.size m.
Proof. induction m; simpl; congruence. Qed.

Lemma digits2_bounds m :
  2 ^ (Z.pos (digits2_pos m) - 1) <= Z.pos m < 2 ^ Z.pos (digits2_pos m).
Proof.
  rewrite digits2_pos_size. split.
  - pose proof (Pos.size_le m) as H.
    apply Pos2Z.pos_le_pos in H. rewrite Pos2Z.inj_pow in H.
    replace (Z.pos (Pos.size m)) with (Z.succ (Z.pos (Pos.size m) - 1)) in H by lia.
    rewrite Z.pow_succ_r in H by lia. lia.
  - pose proof (Pos.size_gt m) as H.
    apply Pos2Z.pos_lt_pos in H. now rewrite Pos2Z.inj_pow in H.
Qed.

Lemma bounded_inv m e :
  bounded prec emax m e = true ->
  -1074 <= e <= 971 /\ Z.pos m < 2 ^ 53 /\ (e = -1074 \/ 2 ^ 52 <= Z.pos m).
Proof.
  unfold bounded, canonical_mantissa, fexp, SpecFloat.emin, prec, emax.
  rewrite andb_true_iff, Z.eqb_eq, Z.leb_le.
  intros [Hc He]. pose proof (digits2_bounds m) as [Hlo Hhi].
  set (d := Z.pos (digits2_pos m)) in *.
  assert (Hd : d <= 53) by lia.
  repeat split; try lia.
  - eapply Z.lt_le_trans; [exact Hhi|]. apply Z.pow_le_mono_r; lia.
  - destruct (Z.eq_dec e (-1074)) as [|Hne]; [now left|right].
    assert (d = 53) by lia.
    replace 52 with (d - 1) by lia. exact Hlo.
Qed.

Lemma finite_rank_pos m e :
  bounded prec emax m e = true -> 0 < Z.pos m * 2 ^ (e + 1074) < 2 ^ 2100.
Proof.
  intros H. apply bounded_inv in H as (He & Hm & _).
  assert (0 < 2 ^ (e + 1074)) by (apply Z.pow_pos_nonneg; lia).
  split; [lia|].
  assert (2 ^ (e + 1074) <= 2 ^ 2045) by (apply Z.pow_le_mono_r; lia).
  replace (2 ^ 2100) with (2 ^ 53 * 2 ^ 2047) by (rewrite <- Z.pow_add_r; [reflexivity | lia | lia]).
  assert (2 ^ 2045 < 2 ^ 2047) by (apply Z.pow_lt_mono_r; lia).
  nia.
Qed.

Lemma finite_rank_exp_lt m1 e1 m2 e2 :
  bounded prec emax m1 e1 = true -> bounded prec emax m2 e2 = true ->
  e1 < e2 -> Z.pos m1 * 2 ^ (e1 + 1074) < Z.pos m2 * 2 ^ (e2 + 1074).
Proof.
  intros H1 H2 Hlt.
  apply bounded_inv in H1 as (He1 & Hm1 & _).
  apply bounded_inv in H2 as (He2 & _ & [->|Hm2]); [lia|].
  replace (e2 + 1074) with ((e1 + 1074) + (e2 - e1)) by lia.
  rewrite (Z.pow_add_r 2 (e1 + 1074) (e2 - e1)) by lia.
  assert (0 < 2 ^ (e1 + 1074)) by (apply Z.pow_pos_nonneg; lia).
  assert (2 ^ 1 <= 2 ^ (e2 - e1)) by (apply Z.pow_le_mono_r; lia).
  change (2 ^ 53) with (2 ^ 52 * 2) in Hm1. change (2 ^ 1) with 2 in *.
  set (P := 2 ^ 52) in *. set (A := 2 ^ (e1 + 1074)) in *.
  set (B := 2 ^ (e2 - e1)) in *.
  assert (Z.pos m1 * A < P * 2 * A) by nia.
  assert (P * 2 * A <= Z.pos m2 * B * A) by (apply Z.mul_le_mono_nonneg_r; nia).
  lia.
Qed.

Lemma finite_compare m1 e1 m2 e2 :
  bounded prec emax m1 e1 = true -> bounded prec emax m2 e2 = true ->
  match e1 ?= e2 with
  | Lt => Lt
  | Gt => Gt
  | Eq => Pos.compare_cont Eq m1 m2
  end = (Z.pos m1 * 2 ^ (e1 + 1074) ?= Z.pos m2 * 2 ^ (e2 + 1074)).
Proof.
  intros H1 H2. symmetry.
  destruct (Z.compare_spec e1 e2) as [->|Hlt|Hgt].
  - rewrite Pos.compare_cont_spec. simpl.
    assert (0 < 2 ^ (e2 + 1074))
      by (apply Z.pow_pos_nonneg; apply bounded_inv in H2; lia).
    destruct (Pos.compare_spec m1 m2) as [->| |]; simpl.
    + apply Z.compare_eq_iff. nia.
    + apply Z.compare_lt_iff. nia.
    + apply Z.compare_gt_iff. nia.
  - apply Z.compare_lt_iff. now apply finite_rank_exp_lt.
  - apply Z.compare_gt_iff. now apply finite_rank_exp_lt.
Qed.

Lemma SFcompare_rank x y :
  valid_binary x = true -> valid_binary y = true ->
  SFis_nan x = false -> SFis_nan y = false ->
  SFcompare x y = Some (SFrank x ?= SFrank y).
Proof.
  destruct x as [sx|sx| |sx mx ex], y as [sy|sy| |sy my ey];
    cbn [SFcompare SFrank valid_binary SFis_nan];
    intros Hx Hy Nx Ny; try discriminate.
  all: try (pose proof (finite_rank_pos _ _ Hx) as Px).
  all: try (pose proof (finite_rank_pos _ _ Hy) as Py).
  all: try (destruct sx); try (destruct sy); cbn [cond_Zopp]; f_equal; symmetry.
  all: try reflexivity.
  all: try (apply Z.compare_lt_iff; lia).
  all: try (apply Z.compare_gt_iff; lia).
  - rewrite Z.compare_opp, (Z.compare_antisym (Z.pos mx * _)).
    rewrite <- (finite_compare _ _ _ _ Hx Hy).
    destruct (ex ?= ey); reflexivity.
  - symmetry. now apply finite_compare.
Qed.

Lemma SFcompare_refl x :
  valid_binary x = true -> SFis_nan x = false -> SFcompare x x = Some Eq.
Proof.
  intros Hv Hn. rewrite SFcompare_rank by assumption.
  now rewrite Z.compare_refl.
Qed.

Lemma is_nan_spec v : is_nan v = SFis_nan (Prim2SF v).
Proof.
  unfold is_nan. rewrite FloatAxioms.eqb_spec. unfold SFeqb.
  destruct (SFis_nan (Prim2SF v)) eqn:E.
  - destruct (Prim2SF v); try discriminate. reflexivity.
  - rewrite SFcompare_refl; auto using Prim2SF_valid.
Qed.

Lemma compare_rank v w :
  is_nan v = false -> is_nan w = false ->
  SFcompare (Prim2SF v) (Prim2SF w) = Some (rank v ?= rank w).
Proof.
  rewrite !is_nan_spec. intros. now apply SFcompare_rank; auto using Prim2SF_valid.
Qed.

Lemma leb_rank v w :
  is_nan v = false -> is_nan w = false ->
  (v <=? w)%float = (rank v <=? rank w).
Proof.
  intros Hv Hw. rewrite FloatAxioms.leb_spec. unfold SFleb, Z.leb.
  rewrite compare_rank by assumption. now destruct (rank v ?= rank w).
Qed.

Lemma ltb_rank v w :
  is_nan v = false -> is_nan w = false ->
  (v <? w)%float = (rank v <? rank w).
Proof.
  intros Hv Hw. rewrite FloatAxioms.ltb_spec. unfold SFltb, Z.ltb.
  rewrite compare_rank by assumption. now destruct (rank v ?= rank w).
Qed.

Lemma eqb_rank v w :
  is_nan v = false -> is_nan w = false ->
  (v =? w)%float = (rank v =? rank w).
Proof.
  intros Hv Hw. rewrite FloatAxioms.eqb_spec, Z.eqb_compare. unfold SFeqb.
  rewrite compare_rank by assumption. now destruct (rank v ?= rank w).
Qed.

Lemma is_finite_spec v :
  is_finite v = true <->
  is_nan v = false /\ - 2 ^ 2100 < rank v < 2 ^ 2100.
Proof.
  unfold is_finite, is_infinity. rewrite negb_true_iff, orb_false_iff.
  split; intros [Hn Hi]; split; try assumption.
  - rewrite FloatAxioms.eqb_spec, abs_spec in Hi. unfold rank.
    pose proof (Prim2SF_valid v) as Hv. rewrite is_nan_spec in Hn.
    destruct (Prim2SF v) as [s|s| |s m e]; try discriminate;
      cbn [SFrank cond_Zopp].
    + lia.
    + pose proof (finite_rank_pos _ _ Hv). destruct s; cbn [cond_Zopp]; lia.
  - rewrite FloatAxioms.eqb_spec, abs_spec. unfold rank in Hi.
    rewrite is_nan_spec in Hn.
    destruct (Prim2SF v) as [s|s| |s m e]; try discriminate; try reflexivity.
    destruct s; cbn [SFrank cond_Zopp] in Hi; lia.
Qed.

Lemma leb_Q v w :
  is_finite v = true -> is_finite w = true ->
  (v <=? w)%float = true <-> (F2Q v <= F2Q w)%Q.
Proof.
  intros [Hv _]%is_finite_spec [Hw _]%is_finite_spec.
  rewrite leb_rank by assumption. rewrite Z.leb_le.
  unfold F2Q, Qle. cbn [Qnum Qden]. 
  split; intros H.
  - now apply Z.mul_le_mono_nonneg_r.
  - eapply Z.mul_le_mono_pos_r; [|exact H]. reflexivity.
Qed.

Lemma ltb_Q v w :
  is_finite v = true -> is_finite w = true ->
  (v <? w)%float = true <-> (F2Q v < F2Q w)%Q.
Proof.
  intros [Hv _]%is_finite_spec [Hw _]%is_finite_spec.
  rewrite ltb_rank by assumption. rewrite Z.ltb_lt.
  unfold F2Q, Qlt. cbn [Qnum Qden]. 
  split; intros H.
  - now apply Z.mul_lt_mono_pos_r.
  - eapply Z.mul_lt_mono_pos_r; [|exact H]. reflexivity.
Qed.

Example F2Q_samples :
  (F2Q 6.5 == 6.5 /\ F2Q 500 == 500 /\ F2Q (5 * 0.8) == 4 /\ F2Q (-0) == 0
   /\ F2Q 0.8 == 3602879701896397 # 4503599627370496)%Q.
Proof. repeat split; vm_compute; reflexivity. Qed.

(** [F2Q] is the value [±m·2^e] of a finite number. *)
Lemma F2Q_finite (v : float) (s : bool) (m : positive) (e : Z) :
  Prim2SF v = S754_finite s m e ->
  (F2Q v == inject_Z (cond_Zopp s (Z.pos m)) * 2 ^ e)%Q.
Proof.
  intros E. pose proof (Prim2SF_valid v) as Hv. rewrite E in Hv.
  apply bounded_inv in Hv as (He & _ & _).
  unfold F2Q, rank. rewrite E. cbn [SFrank].
  rewrite Qmake_Qdiv.
  assert (E1 : cond_Zopp s (Z.pos m * 2 ^ (e + 1074))
               = (cond_Zopp s (Z.pos m) * 2 ^ (e + 1074))%Z)
    by (destruct s; cbn [cond_Zopp]; lia).
  rewrite E1, inject_Z_mult.
  rewrite (Zpower_Qpower 2 (e + 1074)) by lia.
  rewrite Qpower_plus by discriminate.
  rewrite <- (Zpower_Qpower 2 1074) by lia.
  change (inject_Z 2) with 2%Q.
  change (inject_Z (2 ^ 1074)) with (inject_Z (Z.pos (2 ^ 1074))).
  assert (HB : ~ (inject_Z (Z.pos (2 ^ 1074)) == 0)%Q)
    by (apply Qnot_eq_sym, Qlt_not_eq; reflexivity).
  generalize dependent (inject_Z (Z.pos (2 ^ 1074))).
  generalize (2 ^ e)%Q (inject_Z (cond_Zopp s (Z.pos m))).
  intros A M B HB. field. exact HB.
Qed.

End FloatOrder.

(** ** Classification *)

Section Classification.

(** The constant arithmetic of [getSensorStatus] in binary64: although 0.8
    is not a binary64 number, [5 * 0.8] and [500 * 0.8] round to 4 and 400. *)
Example threshold_arithmetic :
  6.5 - 0.5 = 6 /\ 8.5 + 0.5 = 9 /\ 15 - 5 = 10 /\ 25 + 5 = 30
  /\ 5 * 0.8 = 4 /\ 500 * 0.8 = 400.
Proof. repeat split; reflexivity. Qed.

(** The four branches of [getSensorStatus] with the table lookups and the
    constant arithmetic carried out. *)
Lemma getSensorStatus_ph v :
  getSensorStatus "ph" v =
  if (6.5 <=? v) && (v <=? 8.5) then SAFE
  else if (6 <=? v) && (v <=? 9) then WARNING else UNSAFE.
Proof. reflexivity. Qed.

Lemma getSensorStatus_temperature v :
  getSensorStatus "temperature" v =
  if (15 <=? v) && (v <=? 25) then SAFE
  else if (10 <=? v) && (v <=? 30) then WARNING else UNSAFE.
Proof. reflexivity. Qed.

Lemma getSensorStatus_turbidity v :
  getSensorStatus "turbidity" v =
  if (v <=? 4) then SAFE else if (v <=? 5) then WARNING else UNSAFE.
Proof. reflexivity. Qed.

Lemma getSensorStatus_tds v :
  getSensorStatus "tds" v =
  if (v <=? 400) then SAFE else if (v <=? 500) then WARNING else UNSAFE.
Proof. reflexivity. Qed.

(** A comparison against a finite constant [c] of rational value [q]. *)
Lemma leb_const_l (c : float) (q : Q) v :
  is_finite c = true -> (F2Q c == q)%Q -> is_finite v = true ->
  if (c <=? v) then (q <= F2Q v)%Q else ~ (q <= F2Q v)%Q.
Proof.
  intros Hc Hq Hv.
  destruct (c <=? v) eqn:E; rewrite <- Hq.
  - now apply leb_Q.
  - intros H. apply leb_Q in H; congruence.
Qed.

Lemma leb_const_r (c : float) (q : Q) v :
  is_finite c = true -> (F2Q c == q)%Q -> is_finite v = true ->
  if (v <=? c) then (F2Q v <= q)%Q else ~ (F2Q v <= q)%Q.
Proof.
  intros Hc Hq Hv.
  destruct (v <=? c) eqn:E; rewrite <- Hq.
  - now apply leb_Q.
  - intros H. apply leb_Q in H; congruence.
Qed.

(** [below c q] and [above c q]: the comparison of the reading with the
    binary64 constant [c] is the comparison of its value with [q]. *)
Ltac below c q v Hv H :=
  pose proof (leb_const_r c q v eq_refl ltac:(vm_compute; reflexivity) Hv) as H.
Ltac above c q v Hv H :=
  pose proof (leb_const_l c q v eq_refl ltac:(vm_compute; reflexivity) Hv) as H.

Ltac decide_rule :=
  lazymatch goal with
  | |- @eq Status _ _ => try reflexivity; exfalso; lra
  | |- _ => lra
  end.

Lemma ph_rule v s :
  is_finite v = true ->
  getSensorStatus "ph" v = s <-> two_sided_rule 6.5 8.5 0.5 (F2Q v) s.
Proof.
  intros Hv. rewrite getSensorStatus_ph.
  above 6.5 6.5%Q v Hv H1. below 8.5 8.5%Q v Hv H2.
  above 6 (6.5 - 0.5)%Q v Hv H3. below 9 (8.5 + 0.5)%Q v Hv H4.
  generalize dependent (F2Q v); intros x H1 H2 H3 H4.
  destruct (6.5 <=? v), (v <=? 8.5), (6 <=? v), (v <=? 9); cbn [andb];
    destruct s; cbn [two_sided_rule];
    (split; [intros E; try discriminate E | intros E]); decide_rule.
Qed.

Lemma temperature_rule v s :
  is_finite v = true ->
  getSensorStatus "temperature" v = s <-> two_sided_rule 15 25 5.0 (F2Q v) s.
Proof.
  intros Hv. rewrite getSensorStatus_temperature.
  above 15 15%Q v Hv H1. below 25 25%Q v Hv H2.
  above 10 (15 - 5.0)%Q v Hv H3. below 30 (25 + 5.0)%Q v Hv H4.
  generalize dependent (F2Q v); intros x H1 H2 H3 H4.
  destruct (15 <=? v), (v <=? 25), (10 <=? v), (v <=? 30); cbn [andb];
    destruct s; cbn [two_sided_rule];
    (split; [intros E; try discriminate E | intros E]); decide_rule.
Qed.

Lemma turbidity_rule v s :
  is_finite v = true ->
  getSensorStatus "turbidity" v = s <-> upper_bounded_rule 5 (F2Q v) s.
Proof.
  intros Hv. rewrite getSensorStatus_turbidity.
  below 4 (0.8 * 5)%Q v Hv H1. below 5 5%Q v Hv H2.
  generalize dependent (F2Q v); intros x H1 H2.
  destruct (v <=? 4), (v <=? 5);
    destruct s; cbn [upper_bounded_rule];
    (split; [intros E; try discriminate E | intros E]); decide_rule.
Qed.

Lemma tds_rule v s :
  is_finite v = true ->
  getSensorStatus "tds" v = s <-> upper_bounded_rule 500 (F2Q v) s.
Proof.
  intros Hv. rewrite getSensorStatus_tds.
  below 400 (0.8 * 500)%Q v Hv H1. below 500 500%Q v Hv H2.
  generalize dependent (F2Q v); intros x H1 H2.
  destruct (v <=? 400), (v <=? 500);
    destruct s; cbn [upper_bounded_rule];
    (split; [intros E; try discriminate E | intros E]); decide_rule.
Qed.

(** C1.  For every finite reading, of rational value [F2Q v], the status
    [getSensorStatus] returns is the one the threshold rules give: for ph
    (min 6.5, max 8.5, slack 0.5) and temperature (min 15, max 25, slack
    5.0) Safe iff [min <= v <= max], Warning iff
    [min - slack <= v <= max + slack] and not Safe, Unsafe otherwise; for
    turbidity (max 5) and tds (max 500) Safe iff [v <= 0.8 * max], Warning
    iff [0.8 * max < v <= max], Unsafe iff [v > max]. *)
Theorem getSensorStatus_threshold_rules (v : float) (s : Status) :
  JS.isFinite v = true ->
  (getSensorStatus "ph" v = s <-> two_sided_rule 6.5 8.5 0.5 (F2Q v) s)
  /\ (getSensorStatus "temperature" v = s
      <-> two_sided_rule 15 25 5.0 (F2Q v) s)
  /\ (getSensorStatus "turbidity" v = s <-> upper_bounded_rule 5 (F2Q v) s)
  /\ (getSensorStatus "tds" v = s <-> upper_bounded_rule 500 (F2Q v) s).
Proof.
  intros Hv.
  auto using ph_rule, temperature_rule, turbidity_rule, tds_rule.
Qed.

Lemma getSensorStatus_threshold_rules_witness :
  JS.isFinite 6.2 = true
  /\ getSensorStatus "ph" 6.2 = WARNING
  /\ two_sided_rule 6.5 8.5 0.5 (F2Q 6.2) WARNING.
Proof.
  split; [reflexivity|]. split; [reflexivity|].
  apply (getSensorStatus_threshold_rules 6.2 WARNING eq_refl). reflexivity.
Defined.

(** The own keys of the table. *)
Lemma SENSOR_THRESHOLDS_keys (k : string) (t : Threshold) :
  SENSOR_THRESHOLDS !! k = Some t ->
  k = "ph" \/ k = "turbidity" \/ k = "tds" \/ k = "temperature".
Proof.
  unfold SENSOR_THRESHOLDS.
  rewrite !lookup_insert_Some, lookup_empty. intuition congruence.
Qed.

(** C3, as stated, fails: at its [max] a turbidity (or tds) reading is in the
    warning zone, which starts above [0.8 * max]. *)
Lemma status_at_bounds_counterexample :
  ~ (forall (k : string) (t : Threshold),
       SENSOR_THRESHOLDS !! k = Some t ->
       getSensorStatus k (min t) = SAFE /\ getSensorStatus k (max t) = SAFE).
Proof.
  intros H.
  destruct (H "turbidity" _ eq_refl) as [_ Hmax].
  discriminate Hmax.
Qed.

(** C3, amended.  For each kind of the table, a reading equal to the kind's
    [min] is Safe; a reading equal to its [max] is Safe for ph and
    temperature, and Warning for turbidity and tds. *)
Theorem status_at_bounds (k : string) (t : Threshold) :
  SENSOR_THRESHOLDS !! k = Some t ->
  getSensorStatus k (min t) = SAFE
  /\ getSensorStatus k (max t) =
     (if String.eqb k "turbidity" || String.eqb k "tds" then WARNING else SAFE).
Proof.
  intros Ht.
  destruct (SENSOR_THRESHOLDS_keys k t Ht) as [-> | [-> | [-> | ->]]];
    injection Ht as <-; split; reflexivity.
Qed.

Lemma status_at_bounds_witness :
  getSensorStatus "tds" 0 = SAFE /\ getSensorStatus "tds" 500 = WARNING.
Proof.
  exact (status_at_bounds "tds"
           {| min := 0; max := 500; unit := "mg/L"; name := "TDS";
              description := "Total Dissolved Solids in water";
              safeRange := "< 500 mg/L" |} eq_refl).
Defined.

(** A comparison that holds has no NaN operand. *)
Lemma leb_true_not_nan v w :
  (v <=? w) = true -> is_nan v = false /\ is_nan w = false.
Proof.
  rewrite FloatAxioms.leb_spec, !is_nan_spec.
  destruct (Prim2SF v), (Prim2SF w); cbn; intros H;
    first [discriminate H | split; reflexivity].
Qed.

Lemma upper_bounded_monotone (lo hi v1 v2 : float) :
  (v1 <=? v2) = true ->
  let status v :=
    if v <=? lo then SAFE else if v <=? hi then WARNING else UNSAFE in
  (severity (status v1) <= severity (status v2))%nat.
Proof.
  intros H. cbv zeta. destruct (leb_true_not_nan _ _ H) as [N1 N2].
  rewrite leb_rank in H by assumption. apply Z.leb_le in H.
  assert (T : forall c, (v2 <=? c) = true -> (v1 <=? c) = true).
  { intros c Hc. destruct (leb_true_not_nan _ _ Hc) as [_ Nc].
    rewrite leb_rank in Hc |- * by assumption.
    apply Z.leb_le in Hc. apply Z.leb_le. lia. }
  destruct (v2 <=? lo) eqn:E2.
  - rewrite (T _ E2). reflexivity.
  - destruct (v2 <=? hi) eqn:E3.
    + rewrite (T _ E3). destruct (v1 <=? lo); cbn; lia.
    + destruct (v1 <=? lo), (v1 <=? hi); cbn; lia.
Qed.

(** C8.  For turbidity and for tds, the severity of the status is monotone
    in the reading: if [v1 <= v2] then the status of [v1] is at most as
    severe as the status of [v2], under Safe < Warning < Unsafe. *)
Theorem severity_monotone (k : string) (v1 v2 : float) :
  k = "turbidity" \/ k = "tds" ->
  (v1 <=? v2) = true ->
  (severity (getSensorStatus k v1) <= severity (getSensorStatus k v2))%nat.
Proof.
  intros [-> | ->] H.
  - rewrite !getSensorStatus_turbidity.
    now apply (upper_bounded_monotone 4 5).
  - rewrite !getSensorStatus_tds.
    now apply (upper_bounded_monotone 400 500).
Qed.

Lemma severity_monotone_witness :
  (severity (getSensorStatus "tds" 450) <=
   severity (getSensorStatus "tds" 600))%nat.
Proof.
  apply (severity_monotone "tds" 450 600); [right|]; reflexivity.
Defined.

End Classification.

(** ** Names outside the table *)

Section UnknownNames.

(** [known k]: [k] is one of the four kinds of the table. *)
Lemma SENSOR_THRESHOLDS_None (k : string) :
  k <> "ph" -> k <> "turbidity" -> k <> "tds" -> k <> "temperature" ->
  SENSOR_THRESHOLDS !! k = None.
Proof.
  intros. unfold SENSOR_THRESHOLDS.
  rewrite !lookup_insert_ne by congruence. apply lookup_empty.
Qed.

Lemma SENSOR_THRESHOLDS_get_unknown (k : string) :
  SENSOR_THRESHOLDS !! k = None ->
  SENSOR_THRESHOLDS_get k =
  if JS.inherited k then PrototypeMember k else Undefined.
Proof. unfold SENSOR_THRESHOLDS_get. now intros ->. Qed.

Lemma eqb_key_false (k c : string) (t : Threshold) :
  SENSOR_THRESHOLDS !! k = None -> SENSOR_THRESHOLDS !! c = Some t ->
  String.eqb k c = false.
Proof.
  intros Hk Hc. apply String.eqb_neq. intros ->. congruence.
Qed.

(** Outside the table, [getSensorStatus] answers Warning, except for the
    names found on [Object.prototype]: these pass the guard and fall through
    every branch to the final [return WATER_STATUS.SAFE]. *)
Lemma getSensorStatus_unknown (k : string) (v : float) :
  SENSOR_THRESHOLDS !! k = None ->
  getSensorStatus k v = if JS.inherited k then SAFE else WARNING.
Proof.
  intros Hk. unfold getSensorStatus.
  rewrite (SENSOR_THRESHOLDS_get_unknown k Hk).
  destruct (JS.inherited k); [|reflexivity]. cbn [truthy negb].
  rewrite (eqb_key_false k "ph" _ Hk eq_refl).
  rewrite (eqb_key_false k "turbidity" _ Hk eq_refl).
  rewrite (eqb_key_false k "tds" _ Hk eq_refl).
  rewrite (eqb_key_false k "temperature" _ Hk eq_refl).
  reflexivity.
Qed.

(** Anything divided by NaN is NaN. *)
Lemma div_nan (v : float) : v / nan = nan.
Proof.
  apply Prim2SF_inj. rewrite div_spec.
  change (Prim2SF nan) with S754_nan.
  destruct (Prim2SF v); reflexivity.
Qed.

(** Outside the table, [getSafeRangePercentage] answers 50, except for the
    names found on [Object.prototype], where [threshold.max] is undefined and
    the result is NaN. *)
Lemma getSafeRangePercentage_unknown (k : string) (v : float) :
  SENSOR_THRESHOLDS !! k = None ->
  getSafeRangePercentage k v = if JS.inherited k then nan else 50.
Proof.
  intros Hk. unfold getSafeRangePercentage.
  rewrite (SENSOR_THRESHOLDS_get_unknown k Hk).
  destruct (JS.inherited k); [|reflexivity]. cbn [truthy negb threshold_max].
  rewrite (eqb_key_false k "ph" _ Hk eq_refl).
  rewrite div_nan. reflexivity.
Qed.

(** C6, at the failing input: a name inherited from [Object.prototype], such
    as ['constructor'], is none of the four kinds, yet [getSensorStatus]
    returns Safe for it, not Warning, and [calculateWaterQuality] records an
    entry for it in the per-sensor map. *)
Theorem unknown_kind_constructor :
  SENSOR_THRESHOLDS !! "constructor" = None
  /\ getSensorStatus "constructor" 7 = SAFE
  /\ sensors (calculateWaterQuality [("constructor", 7)]) !! "constructor"
     = Some SAFE.
Proof. repeat split; reflexivity. Qed.

(** C9, at the failing input: for the name ['toString'], which has no defined
    threshold, [getSafeRangePercentage] returns NaN, not 50. *)
Theorem percentage_toString :
  SENSOR_THRESHOLDS !! "toString" = None
  /\ getSafeRangePercentage "toString" 3 = nan.
Proof. split; reflexivity. Qed.

(** C10, at the failing input: for the name ['valueOf'] and the finite value
    [1] the result of [getSafeRangePercentage] is NaN, which is neither
    [>= 0] nor [<= 100]. *)
Theorem percentage_valueOf_out_of_range :
  JS.isFinite 1 = true
  /\ (0 <=? getSafeRangePercentage "valueOf" 1) = false
  /\ (getSafeRangePercentage "valueOf" 1 <=? 100) = false.
Proof. repeat split; reflexivity. Qed.

(** C2, at the failing input: the reading set [{hasOwnProperty: 2}] has no
    entry whose kind has a threshold in the table, yet the entry is
    classified and appears in the per-sensor map. *)
Theorem aggregate_hasOwnProperty :
  SENSOR_THRESHOLDS !! "hasOwnProperty" = None
  /\ sensors (calculateWaterQuality [("hasOwnProperty", 2)])
     = {[ "hasOwnProperty" := SAFE ]}.
Proof. split; reflexivity. Qed.

(** C4, at the failing input: for temperature the code takes the one-sided
    branch, so the ideal 20 degrees shows as 80, where the two-sided formula
    with midpoint 20 and range 10 gives 100. *)
Theorem percentage_temperature_one_sided :
  getSafeRangePercentage "temperature" 20 = 80
  /\ two_sided_position 20 10 20 = 100
  /\ forall v, getSafeRangePercentage "temperature" v
               = one_sided_position 25 v.
Proof. repeat split; reflexivity. Qed.

End UnknownNames.

(** ** Aggregation *)

Section Aggregate.

Lemma worst_update (status overallStatus : Status) :
  (if Status_eqb status UNSAFE then UNSAFE
   else if Status_eqb status WARNING && Status_eqb overallStatus SAFE
        then WARNING else overallStatus)
  = worst overallStatus status.
Proof. destruct status, overallStatus; reflexivity. Qed.

(** The loop computes the two components independently. *)
Lemma fold_check_sensor (es : list (string * float))
    (st : gmap string Status) (o : Status) :
  fold_left check_sensor es (st, o)
  = (fold_left record_status es st, fold_left worst (classified_statuses es) o).
Proof.
  revert st o. induction es as [|[k v] es IH]; intros st o; [reflexivity|].
  cbn [fold_left classified_statuses].
  unfold check_sensor at 2, record_status at 2.
  fold (classified k). cbn [fst snd].
  destruct (classified k).
  - cbn [fold_left]. rewrite <- worst_update.
    destruct (Status_eqb (getSensorStatus k v) UNSAFE);
      [|destruct (Status_eqb (getSensorStatus k v) WARNING && Status_eqb o SAFE)];
      apply IH.
  - apply IH.
Qed.

Lemma calculateWaterQuality_unfold (es : list (string * float)) :
  calculateWaterQuality es
  = {| overall := fold_left worst (classified_statuses es) SAFE;
       sensors := fold_left record_status es ∅;
       isPotable :=
         Status_eqb (fold_left worst (classified_statuses es) SAFE) SAFE |}.
Proof. unfold calculateWaterQuality. now rewrite fold_check_sensor. Qed.

(** [fold_left worst] is the maximum for the severity order. *)
Lemma worst_severity (a b : Status) :
  severity (worst a b) = Nat.max (severity a) (severity b).
Proof. destruct a, b; reflexivity. Qed.

Lemma fold_worst_ge (l : list Status) (o : Status) :
  (severity o <= severity (fold_left worst l o))%nat
  /\ Forall (fun s => (severity s <= severity (fold_left worst l o))%nat) l.
Proof.
  revert o. induction l as [|s l IH]; intros o; cbn [fold_left].
  - split; [lia | constructor].
  - destruct (IH (worst o s)) as [H1 H2]. rewrite worst_severity in H1.
    split; [lia|]. constructor; [lia | exact H2].
Qed.

Lemma fold_worst_attained (l : list Status) (o : Status) :
  fold_left worst l o = o \/ fold_left worst l o ∈ l.
Proof.
  revert o. induction l as [|s l IH]; intros o; cbn [fold_left].
  - now left.
  - destruct (IH (worst o s)) as [H | H].
    + rewrite H. unfold worst. destruct (severity o <? severity s)%nat.
      * right. left.
      * now left.
    + right. now right.
Qed.

Lemma classified_statuses_elem (es : list (string * float)) (s : Status) :
  s ∈ classified_statuses es <->
  exists k v, (k, v) ∈ es /\ classified k = true /\ getSensorStatus k v = s.
Proof.
  induction es as [|[k v] es IH]; cbn [classified_statuses].
  - split; [intros H; inversion H | intros (? & ? & H & _); inversion H].
  - destruct (classified k) eqn:Ek.
    + rewrite elem_of_cons, IH. split.
      * intros [-> | (k' & v' & ? & ? & ?)].
        -- exists k, v. repeat split; [left | done].
        -- exists k', v'. repeat split; [now right | done..].
      * intros (k' & v' & [E | ?]%elem_of_cons & ? & ?).
        -- injection E as -> ->. now left.
        -- right. now exists k', v'.
    + rewrite IH. split.
      * intros (k' & v' & ? & ? & ?). exists k', v'.
        repeat split; [now right | done..].
      * intros (k' & v' & [E | ?]%elem_of_cons & ? & ?).
        -- injection E as -> ->. congruence.
        -- now exists k', v'.
Qed.

Lemma set_property_lookup_ne (st : gmap string Status) (k k' : string)
    (s : Status) :
  k <> k' -> JS.set_property st k' s !! k = st !! k.
Proof.
  intros Hne. unfold JS.set_property.
  destruct (String.eqb k' "__proto__"); [reflexivity|].
  now apply lookup_insert_ne.
Qed.

Lemma record_status_notin (es : list (string * float))
    (st : gmap string Status) (k : string) :
  k ∉ es.*1 -> fold_left record_status es st !! k = st !! k.
Proof.
  revert st. induction es as [|[k' v'] es IH]; intros st Hk; [reflexivity|].
  cbn [fold_left]. rewrite fmap_cons, not_elem_of_cons in Hk.
  destruct Hk as [Hne Hk]. rewrite IH by assumption.
  unfold record_status. cbn [fst snd].
  destruct (classified k'); [|reflexivity].
  now apply set_property_lookup_ne.
Qed.

Lemma record_status_Some (es : list (string * float))
    (st : gmap string Status) (k : string) (s : Status) :
  fold_left record_status es st !! k = Some s ->
  st !! k = Some s
  \/ exists v, (k, v) ∈ es /\ classified k = true /\ s = getSensorStatus k v.
Proof.
  revert st. induction es as [|[k' v'] es IH]; intros st H; [now left|].
  cbn [fold_left] in H. destruct (IH _ H) as [H' | (v & ? & ? & ?)].
  - unfold record_status in H'. cbn [fst snd] in H'.
    destruct (classified k') eqn:Ek; [|now left].
    unfold JS.set_property in H'.
    destruct (String.eqb k' "__proto__"); [now left|].
    apply lookup_insert_Some in H' as [[<- <-] | [_ ?]]; [|now left].
    right. exists v'. repeat split; [left | done].
  - right. exists v. repeat split; [now right | done..].
Qed.

Lemma record_status_NoDup (es : list (string * float))
    (st : gmap string Status) (k : string) (v : float) :
  NoDup es.*1 -> (k, v) ∈ es -> classified k = true -> k <> "__proto__" ->
  fold_left record_status es st !! k = Some (getSensorStatus k v).
Proof.
  intros Hnd Hin Hc Hp. revert st.
  induction es as [|[k' v'] es IH]; intros st; [inversion Hin|].
  rewrite fmap_cons in Hnd. apply NoDup_cons in Hnd as [Hk' Hnd].
  cbn [fold_left]. apply elem_of_cons in Hin as [E | Hin].
  - injection E as <- <-. rewrite record_status_notin by assumption.
    unfold record_status, JS.set_property. cbn [fst snd]. rewrite Hc.
    apply String.eqb_neq in Hp. rewrite Hp. apply lookup_insert_eq.
  - now apply IH.
Qed.

(** Names that are not inherited pass the guard exactly when the table has
    them. *)
Lemma classified_not_inherited (k : string) :
  JS.inherited k = false ->
  classified k = true <-> is_Some (SENSOR_THRESHOLDS !! k).
Proof.
  intros Hk. unfold classified, SENSOR_THRESHOLDS_get. rewrite Hk.
  destruct (SENSOR_THRESHOLDS !! k); cbn; split; intros H;
    try reflexivity; try discriminate; eauto.
  now destruct H.
Qed.

(** What [calculateWaterQuality] computes on a reading set none of whose
    names is inherited from [Object.prototype] (the own properties of an
    object have distinct names): the per-sensor map holds exactly the
    statuses of the entries whose kind is in the table; the overall status
    is the maximum severity among them, Safe when there is none; and
    [isPotable] says whether the overall status is Safe. *)
Lemma aggregate_known_kinds (es : list (string * float)) :
  NoDup es.*1 ->
  Forall (fun e => JS.inherited e.1 = false) es ->
  let r := calculateWaterQuality es in
  let known k := is_Some (SENSOR_THRESHOLDS !! k) in
  (forall k s, sensors r !! k = Some s <->
     exists v, (k, v) ∈ es /\ known k /\ s = getSensorStatus k v)
  /\ (forall k v, (k, v) ∈ es -> known k ->
        (severity (getSensorStatus k v) <= severity (overall r))%nat)
  /\ (overall r = SAFE
      \/ exists k v, (k, v) ∈ es /\ known k /\ getSensorStatus k v = overall r)
  /\ ((forall k v, (k, v) ∈ es -> ~ known k) -> overall r = SAFE)
  /\ (isPotable r = true <-> overall r = SAFE).
Proof.
  intros Hnd Hinh r known. subst r. rewrite calculateWaterQuality_unfold.
  cbn [overall sensors isPotable].
  rewrite Forall_forall in Hinh.
  assert (Hcl : forall k v, (k, v) ∈ es -> classified k = true <-> known k).
  { intros k v Hin. apply classified_not_inherited. exact (Hinh _ Hin). }
  set (o := fold_left worst (classified_statuses es) SAFE).
  assert (Hmax : o = SAFE
     \/ exists k v, (k, v) ∈ es /\ known k /\ getSensorStatus k v = o).
  { destruct (fold_worst_attained (classified_statuses es) SAFE) as [H | H];
      [now left|]. fold o in H.
    apply classified_statuses_elem in H as (k & v & Hin & Hc & Hs).
    right. exists k, v. split; [done | split; [|done]]. now apply (Hcl k v). }
  repeat split.
  - intros H. apply record_status_Some in H as [H | (v & Hin & Hc & ->)].
    + now rewrite lookup_empty in H.
    + exists v. split; [done | split; [|done]]. now apply (Hcl k v).
  - intros (v & Hin & Hk & ->). apply record_status_NoDup; trivial.
    + now apply (Hcl k v).
    + intros ->. now specialize (Hinh _ Hin).
  - intros k v Hin Hk.
    destruct (fold_worst_ge (classified_statuses es) SAFE) as [_ H].
    rewrite Forall_forall in H. apply H, classified_statuses_elem.
    exists k, v. split; [done | split; [|done]]. now apply (Hcl k v).
  - exact Hmax.
  - intros Hnone. destruct Hmax as [H | (k & v & Hin & Hk & _)]; [done|].
    now destruct (Hnone k v Hin).
  - unfold Status_eqb. now intros H%bool_decide_eq_true.
  - unfold Status_eqb. intros ->. reflexivity.
Qed.

End Aggregate.

(** ** Clamping *)

Section Clamp.
Local Open Scope Z_scope.

Lemma SFcompare_Eq_inv x y :
  SFcompare x y = Some Eq -> SFrank x <> 0 -> x = y.
Proof.
  destruct x as [sx|sx| |sx mx ex], y as [sy|sy| |sy my ey];
    cbn [SFcompare SFrank]; intros H Hr; try discriminate H;
    try (now destruct Hr);
    try (destruct sx; discriminate H); try (destruct sy; discriminate H).
  - destruct sx, sy; try discriminate H; reflexivity.
  - injection H as H. rewrite Pos.compare_cont_spec in H. cbn [Pos.switch_Eq] in H.
    assert (E : (ex ?= ey) = Eq /\ (mx ?= my)%positive = Eq /\ sx = sy).
    { destruct sx, sy; try discriminate H; destruct (ex ?= ey);
        try discriminate H; repeat split; trivial.
      all: destruct (mx ?= my)%positive; cbn in H; congruence. }
    destruct E as (He & Hm & ->).
    apply Z.compare_eq in He. apply Pos.compare_eq in Hm. congruence.
Qed.

(** Two non-NaN numbers of the same non-zero rank are the same number. *)
Lemma rank_inj v w :
  is_nan v = false -> is_nan w = false -> rank v = rank w -> rank v <> 0 ->
  v = w.
Proof.
  intros Hv Hw E Hr. apply Prim2SF_inj, SFcompare_Eq_inv; [|exact Hr].
  rewrite compare_rank by assumption. now rewrite E, Z.compare_refl.
Qed.

Lemma clamp_low x : (x <=? 0)%float = true -> clamp 0 100 x = 0%float.
Proof.
  intros H. destruct (leb_true_not_nan _ _ H) as [Hx _].
  rewrite leb_rank in H by (assumption || reflexivity).
  change (rank 0) with 0 in H. apply Z.leb_le in H.
  assert (H100 : 0 < rank 100) by (vm_compute; reflexivity).
  unfold clamp, JS.Math_min. rewrite Hx.
  change (is_nan 100) with false. cbn [orb].
  rewrite !ltb_rank by (assumption || reflexivity).
  destruct (Z.ltb_spec (rank 100) (rank x)); [lia|].
  destruct (Z.ltb_spec (rank x) (rank 100)); [|lia].
  unfold JS.Math_max. rewrite Hx. change (is_nan 0) with false. cbn [orb].
  rewrite !ltb_rank by (assumption || reflexivity).
  change (rank 0) with 0.
  destruct (Z.ltb_spec 0 (rank x)); [lia|].
  destruct (Z.ltb_spec (rank x) 0); reflexivity.
Qed.

Lemma clamp_high x : (100 <=? x)%float = true -> clamp 0 100 x = 100%float.
Proof.
  intros H. destruct (leb_true_not_nan _ _ H) as [_ Hx].
  rewrite leb_rank in H by (assumption || reflexivity).
  apply Z.leb_le in H.
  assert (H100 : 0 < rank 100) by (vm_compute; reflexivity).
  assert (E : JS.Math_min 100 x = 100%float).
  { unfold JS.Math_min. rewrite Hx.
    change (is_nan 100) with false. cbn [orb].
    rewrite !ltb_rank by (assumption || reflexivity).
    destruct (Z.ltb_spec (rank 100) (rank x)); [reflexivity|].
    destruct (Z.ltb_spec (rank x) (rank 100)); [lia|].
    change (get_sign 100) with false. cbv iota.
    symmetry. apply rank_inj; trivial; lia. }
  unfold clamp. rewrite E. reflexivity.
Qed.

(** A clamped number lies between the bounds, unless it is NaN. *)
Lemma clamp_bounds x :
  is_nan x = false ->
  (0 <=? clamp 0 100 x)%float = true /\ (clamp 0 100 x <=? 100)%float = true.
Proof.
  intros Hx.
  assert (H100 : 0 < rank 100) by (vm_compute; reflexivity).
  destruct (Z.le_gt_cases (rank x) 0) as [H0 | H0].
  { rewrite clamp_low; [split; reflexivity|].
    rewrite leb_rank by (assumption || reflexivity). now apply Z.leb_le. }
  destruct (Z.le_gt_cases (rank 100) (rank x)) as [H1 | H1].
  { rewrite clamp_high; [split; reflexivity|].
    rewrite leb_rank by (assumption || reflexivity). now apply Z.leb_le. }
  assert (E : clamp 0 100 x = x).
  { unfold clamp, JS.Math_min. rewrite Hx.
    change (is_nan 100) with false. cbn [orb].
    rewrite !ltb_rank by (assumption || reflexivity).
    destruct (Z.ltb_spec (rank 100) (rank x)); [lia|].
    destruct (Z.ltb_spec (rank x) (rank 100)); [|lia].
    unfold JS.Math_max. rewrite Hx. change (is_nan 0) with false. cbn [orb].
    rewrite !ltb_rank by (assumption || reflexivity).
    change (rank 0) with 0.
    destruct (Z.ltb_spec 0 (rank x)); [reflexivity|lia]. }
  rewrite E, !leb_rank by (assumption || reflexivity).
  change (rank 0) with 0. split; apply Z.leb_le; lia.
Qed.

End Clamp.

(** ** Arithmetic that cannot produce NaN *)

Section NotNaN.
Local Open Scope Z_scope.

Lemma shr_1_nonneg mrs : 0 <= shr_m mrs -> 0 <= shr_m (shr_1 mrs).
Proof.
  destruct mrs as [m r s]. cbn [shr_m shr_1].
  destruct m as [|[p|p|]|p]; cbn [shr_m]; lia.
Qed.

Lemma iter_shr_1_nonneg p mrs :
  0 <= shr_m mrs -> 0 <= shr_m (SpecFloat.iter_pos shr_1 p mrs).
Proof.
  revert mrs. induction p as [p IH|p IH|]; intros mrs H; cbn [SpecFloat.iter_pos].
  - apply IH, IH, shr_1_nonneg, H.
  - apply IH, IH, H.
  - apply shr_1_nonneg, H.
Qed.

Lemma shr_fexp_nonneg m e l :
  0 <= m -> 0 <= shr_m (fst (shr_fexp prec emax m e l)).
Proof.
  intros H. unfold shr_fexp, shr.
  assert (H0 : 0 <= shr_m (shr_record_of_loc m l))
    by (destruct l as [|[]]; exact H).
  destruct (fexp prec emax (Zdigits2 m + e) - e); cbn [fst]; trivial.
  now apply iter_shr_1_nonneg.
Qed.

Lemma round_nearest_even_nonneg m l : 0 <= m -> 0 <= round_nearest_even m l.
Proof.
  intros H. unfold round_nearest_even.
  destruct l as [|[]]; try destruct (Z.even m); lia.
Qed.

(** Rounding a non-negative mantissa never produces NaN. *)
Lemma binary_round_aux_not_nan s m e l :
  0 <= m -> SFis_nan (binary_round_aux prec emax s m e l) = false.
Proof.
  intros H. unfold binary_round_aux.
  pose proof (shr_fexp_nonneg m e l H) as H1.
  destruct (shr_fexp prec emax m e l) as [mrs' e']. cbn [fst] in H1.
  pose proof (shr_fexp_nonneg _ e' loc_Exact
                (round_nearest_even_nonneg _ (loc_of_shr_record mrs') H1)) as H2.
  destruct (shr_fexp prec emax _ e' loc_Exact) as [mrs'' e'']. cbn [fst] in H2.
  destruct (shr_m mrs''); [reflexivity | | lia].
  now destruct (e'' <=? emax - prec).
Qed.

Lemma binary_normalize_not_nan m e s :
  SFis_nan (binary_normalize prec emax m e s) = false.
Proof.
  destruct m; cbn [binary_normalize]; [reflexivity | |];
    unfold binary_round; destruct (shl_align _ _ _);
    now apply binary_round_aux_not_nan.
Qed.

Lemma SFmul_finite_not_nan x s m e :
  SFis_nan x = false -> SFis_nan (SF64mul x (S754_finite s m e)) = false.
Proof.
  destruct x; intros H; try discriminate H; cbn; try reflexivity.
  now apply binary_round_aux_not_nan.
Qed.

Lemma SFdiv_finite_not_nan x s m e :
  SFis_nan x = false -> SFis_nan (SF64div x (S754_finite s m e)) = false.
Proof.
  destruct x as [| | |sx mx ex]; intros H; try discriminate H;
    try reflexivity.
  unfold SF64div, SFdiv, SFdiv_core_binary.
  set (m' := match _ - _ - _ with Z.pos _ => _ | _ => _ end).
  assert (Hm : 0 <= m').
  { subst m'. destruct (_ - _ - _); try lia. apply Z.shiftl_nonneg. lia. }
  pose proof (Z_div_mod m' (Z.pos m) eq_refl) as Hd.
  destruct (Z.div_eucl m' (Z.pos m)) as [q r].
  apply binary_round_aux_not_nan. nia.
Qed.

Lemma SFsub_finite_r_not_nan x s m e :
  SFis_nan x = false -> SFis_nan (SF64sub x (S754_finite s m e)) = false.
Proof.
  destruct x; intros H; try discriminate H; try reflexivity.
  apply binary_normalize_not_nan.
Qed.

Lemma SFsub_finite_l_not_nan s m e y :
  SFis_nan y = false -> SFis_nan (SF64sub (S754_finite s m e) y) = false.
Proof.
  destruct y; intros H; try discriminate H; try reflexivity.
  apply binary_normalize_not_nan.
Qed.

Lemma SFabs_not_nan x : SFis_nan (SFabs x) = SFis_nan x.
Proof. now destruct x. Qed.

End NotNaN.

(** ** Gauge position *)

Section Percentage.

Lemma Prim2SF_not_nan v : SFis_nan (Prim2SF v) = false <-> is_nan v = false.
Proof. now rewrite is_nan_spec. Qed.

(** Every operation of the two formulas has a finite non-zero constant as
    one operand. *)
Lemma div_const_not_nan v c :
  finite_nonzero c = true -> is_nan v = false -> is_nan (v / c) = false.
Proof.
  unfold finite_nonzero. intros Hc Hv. rewrite is_nan_spec, div_spec.
  destruct (Prim2SF c); try discriminate Hc.
  now apply SFdiv_finite_not_nan, Prim2SF_not_nan.
Qed.

Lemma mul_const_not_nan v c :
  finite_nonzero c = true -> is_nan v = false -> is_nan (v * c) = false.
Proof.
  unfold finite_nonzero. intros Hc Hv. rewrite is_nan_spec, mul_spec.
  destruct (Prim2SF c); try discriminate Hc.
  now apply SFmul_finite_not_nan, Prim2SF_not_nan.
Qed.

Lemma sub_const_r_not_nan v c :
  finite_nonzero c = true -> is_nan v = false -> is_nan (v - c) = false.
Proof.
  unfold finite_nonzero. intros Hc Hv. rewrite is_nan_spec, sub_spec.
  destruct (Prim2SF c); try discriminate Hc.
  now apply SFsub_finite_r_not_nan, Prim2SF_not_nan.
Qed.

Lemma sub_const_l_not_nan c v :
  finite_nonzero c = true -> is_nan v = false -> is_nan (c - v) = false.
Proof.
  unfold finite_nonzero. intros Hc Hv. rewrite is_nan_spec, sub_spec.
  destruct (Prim2SF c); try discriminate Hc.
  now apply SFsub_finite_l_not_nan, Prim2SF_not_nan.
Qed.

Lemma abs_not_nan v : is_nan (abs v) = is_nan v.
Proof. now rewrite !is_nan_spec, abs_spec, SFabs_not_nan. Qed.

Lemma one_sided_not_nan hi v :
  finite_nonzero hi = true -> is_nan v = false ->
  is_nan ((v / hi) * 100) = false.
Proof.
  intros Hhi Hv. apply mul_const_not_nan; [reflexivity|].
  now apply div_const_not_nan.
Qed.

Lemma two_sided_not_nan midpoint half v :
  finite_nonzero midpoint = true -> finite_nonzero half = true ->
  is_nan v = false ->
  is_nan (100 - (abs (v - midpoint) / half) * 100) = false.
Proof.
  intros Hm Hh Hv. apply sub_const_l_not_nan; [reflexivity|].
  apply mul_const_not_nan; [reflexivity|].
  apply div_const_not_nan; [assumption|].
  rewrite abs_not_nan. now apply sub_const_r_not_nan.
Qed.

(** The branches of [getSafeRangePercentage], with the table lookups and
    the constant arithmetic ([8.5 - 6.5], [6.5 + 2 / 2], [2 / 2]) carried out
    in binary64. *)
Lemma getSafeRangePercentage_ph v :
  getSafeRangePercentage "ph" v
  = clamp 0 100 (100 - (abs (v - 7.5) / 1) * 100).
Proof. reflexivity. Qed.

Lemma getSafeRangePercentage_one_sided k t v :
  SENSOR_THRESHOLDS !! k = Some t -> k <> "ph" ->
  getSafeRangePercentage k v = clamp 0 100 ((v / max t) * 100).
Proof.
  intros Ht Hk.
  destruct (SENSOR_THRESHOLDS_keys k t Ht) as [-> | [-> | [-> | ->]]];
    [done | injection Ht as <-; reflexivity..].
Qed.

(** For every name that is not inherited from [Object.prototype], and every
    reading that is not NaN, the position lies between 0 and 100. *)
Lemma percentage_bounds (k : string) (v : float) :
  JS.inherited k = false -> is_nan v = false ->
  (0 <=? getSafeRangePercentage k v) = true
  /\ (getSafeRangePercentage k v <=? 100) = true.
Proof.
  intros Hk Hv. destruct (SENSOR_THRESHOLDS !! k) as [t|] eqn:Ht.
  - destruct (String.eqb_spec k "ph") as [-> | Hph].
    + rewrite getSafeRangePercentage_ph. apply clamp_bounds.
      now apply two_sided_not_nan.
    + rewrite (getSafeRangePercentage_one_sided k t v Ht Hph).
      apply clamp_bounds, one_sided_not_nan; [|assumption].
      destruct (SENSOR_THRESHOLDS_keys k t Ht) as [-> | [-> | [-> | ->]]];
        injection Ht as <-; reflexivity.
  - rewrite (getSafeRangePercentage_unknown k v Ht), Hk.
    split; reflexivity.
Qed.

End Percentage.

(** ** Determinism *)

Section Determinism.
Local Open Scope Z_scope.

Lemma eqb_true_not_nan v w :
  (v =? w)%float = true -> is_nan v = false /\ is_nan w = false.
Proof.
  rewrite FloatAxioms.eqb_spec, !is_nan_spec.
  destruct (Prim2SF v), (Prim2SF w); cbn; intros H;
    first [discriminate H | split; reflexivity].
Qed.

(** The only numbers of rank 0 are the two zeros. *)
Lemma rank_zero_inv v :
  is_nan v = false -> rank v = 0 -> v = 0%float \/ v = (-0)%float.
Proof.
  rewrite is_nan_spec. unfold rank. intros Hn Hr.
  pose proof (Prim2SF_valid v) as Hv. rewrite <- (SF2Prim_Prim2SF v).
  destruct (Prim2SF v) as [[]|[]| |s m e]; try discriminate Hn.
  - now right.
  - now left.
  - discriminate Hr.
  - discriminate Hr.
  - pose proof (finite_rank_pos _ _ Hv). cbn [SFrank] in Hr.
    destruct s; cbn [cond_Zopp] in Hr; lia.
Qed.

(** The strict equality [===] of JavaScript identifies two numbers only if
    they are the same number or the two zeros. *)
Lemma strict_equal_inv v w :
  (v =? w)%float = true ->
  v = w \/ (v = 0 \/ v = -0)%float /\ (w = 0 \/ w = -0)%float.
Proof.
  intros H. destruct (eqb_true_not_nan _ _ H) as [Hv Hw].
  rewrite eqb_rank in H by assumption. apply Z.eqb_eq in H.
  destruct (Z.eq_dec (rank v) 0) as [Hz | Hz].
  - right. split; apply rank_zero_inv; trivial. congruence.
  - left. now apply rank_inj.
Qed.

Lemma table_or_unknown (k : string) :
  (k = "ph" \/ k = "turbidity" \/ k = "tds" \/ k = "temperature")
  \/ SENSOR_THRESHOLDS !! k = None.
Proof.
  destruct (SENSOR_THRESHOLDS !! k) as [t|] eqn:E; [left | now right].
  exact (SENSOR_THRESHOLDS_keys k t E).
Qed.

(** The two zeros, which [===] identifies, get the same status and the same
    gauge position. *)
Lemma zero_sign_irrelevant (k : string) :
  getSensorStatus k 0 = getSensorStatus k (-0)
  /\ getSafeRangePercentage k 0 = getSafeRangePercentage k (-0).
Proof.
  destruct (table_or_unknown k) as [[-> | [-> | [-> | ->]]] | Hk];
    try (split; reflexivity).
  now rewrite !getSensorStatus_unknown, !getSafeRangePercentage_unknown.
Qed.

(** *** No call writes to the module's objects *)

Lemma SENSOR_THRESHOLDS_get_store k st :
  (Stateful.SENSOR_THRESHOLDS_get k st).2 = st.
Proof. reflexivity. Qed.

(** Neither function writes to the store. *)
Lemma getSensorStatus_store k v st :
  (Stateful.getSensorStatus k v st).2 = st.
Proof.
  unfold Stateful.getSensorStatus, mbind, Stateful.Eval_bind,
    Stateful.SENSOR_THRESHOLDS_get, Stateful.WATER_STATUS_get.
  repeat match goal with
         | |- context [if ?b then _ else _] => destruct b
         end; reflexivity.
Qed.

Lemma getSafeRangePercentage_store k v st :
  (Stateful.getSafeRangePercentage k v st).2 = st.
Proof.
  unfold Stateful.getSafeRangePercentage, mbind, mret, Stateful.Eval_bind,
    Stateful.Eval_ret, Stateful.SENSOR_THRESHOLDS_get.
  repeat match goal with
         | |- context [if ?b then _ else _] => destruct b
         end; reflexivity.
Qed.

Lemma check_sensor_store acc e st :
  (Stateful.check_sensor acc e st).2 = st.
Proof.
  destruct acc as [statuses overallStatus], e as [sensor value].
  unfold Stateful.check_sensor, mbind, mret, Stateful.Eval_bind,
    Stateful.Eval_ret.
  cbn [Stateful.SENSOR_THRESHOLDS_get].
  destruct (truthy _); [|reflexivity].
  pose proof (getSensorStatus_store sensor value st) as E.
  destruct (Stateful.getSensorStatus sensor value st) as [status st'].
  cbn [snd] in E. subst st'. unfold Stateful.WATER_STATUS_get.
  repeat match goal with
         | |- context [if ?b then _ else _] => destruct b
         end; reflexivity.
Qed.

Lemma for_of_check_sensor_store d acc st :
  (Stateful.for_of Stateful.check_sensor d acc st).2 = st.
Proof.
  revert acc. induction d as [|e d IH]; intros acc; [reflexivity|].
  cbn [Stateful.for_of]. unfold mbind, Stateful.Eval_bind.
  pose proof (check_sensor_store acc e st) as E.
  destruct (Stateful.check_sensor acc e st) as [acc' st'].
  cbn [snd] in E. subst st'. apply IH.
Qed.

Lemma calculateWaterQuality_store d st :
  (Stateful.calculateWaterQuality d st).2 = st.
Proof.
  unfold Stateful.calculateWaterQuality, mbind, mret, Stateful.Eval_bind,
    Stateful.Eval_ret, Stateful.WATER_STATUS_get.
  pose proof (for_of_check_sensor_store d (∅, Stateful.water_status st SAFE) st)
    as E.
  destruct (Stateful.for_of _ _ _ _) as [acc st']. cbn [snd] in E.
  now subst st'.
Qed.

Lemma call_store c st : (Stateful.call c st).2 = st.
Proof.
  destruct c as [k v|k v|d]; unfold Stateful.call, mbind, mret,
    Stateful.Eval_bind, Stateful.Eval_ret.
  - pose proof (getSensorStatus_store k v st) as E.
    destruct (Stateful.getSensorStatus k v st). exact E.
  - pose proof (getSafeRangePercentage_store k v st) as E.
    destruct (Stateful.getSafeRangePercentage k v st). exact E.
  - pose proof (calculateWaterQuality_store d st) as E.
    destruct (Stateful.calculateWaterQuality d st). exact E.
Qed.

(** No sequence of calls of the three exported functions changes the
    store. *)
Lemma calls_store cs st : (Stateful.calls cs st).2 = st.
Proof.
  induction cs as [|c cs IH]; [reflexivity|].
  cbn [Stateful.calls]. unfold mbind, mret, Stateful.Eval_bind,
    Stateful.Eval_ret.
  pose proof (call_store c st) as E.
  destruct (Stateful.call c st) as [r st']. cbn [snd] in E. subst st'.
  destruct (Stateful.calls cs st) as [rs st'']. exact IH.
Qed.

(** In the store the module starts with, the two programs return what the
    functions [getSensorStatus] and [getSafeRangePercentage] of the
    sections above compute. *)
Lemma initial_store_agrees k v :
  (Stateful.getSensorStatus k v Stateful.initial).1
  = Stateful.WATER_STATUS (getSensorStatus k v)
  /\ (Stateful.getSafeRangePercentage k v Stateful.initial).1
     = getSafeRangePercentage k v.
Proof.
  unfold Stateful.getSensorStatus, Stateful.getSafeRangePercentage,
    getSensorStatus, getSafeRangePercentage, mbind, mret, Stateful.Eval_bind,
    Stateful.Eval_ret, Stateful.SENSOR_THRESHOLDS_get,
    Stateful.WATER_STATUS_get.
  cbn [Stateful.thresholds Stateful.water_status Stateful.initial].
  fold (SENSOR_THRESHOLDS_get k).
  split;
    repeat match goal with
           | |- context [if ?b then _ else _] => destruct b
           end; reflexivity.
Qed.

Lemma WATER_STATUS_eqb (a b : Status) :
  String.eqb (Stateful.WATER_STATUS a) (Stateful.WATER_STATUS b)
  = Status_eqb a b.
Proof. now destruct a, b. Qed.

Lemma set_property_fmap {A B : Type} (f : A -> B) (o : gmap string A)
    (k : string) (a : A) :
  JS.set_property (f <$> o) k (f a) = f <$> JS.set_property o k a.
Proof.
  unfold JS.set_property. destruct (String.eqb k "__proto__"); [reflexivity|].
  now rewrite fmap_insert.
Qed.

Lemma initial_check_sensor_agrees (statuses : gmap string Status)
    (overallStatus : Status) (e : string * float) :
  Stateful.check_sensor
    (Stateful.WATER_STATUS <$> statuses, Stateful.WATER_STATUS overallStatus)
    e Stateful.initial
  = (let '(m, o) := check_sensor (statuses, overallStatus) e in
     (Stateful.WATER_STATUS <$> m, Stateful.WATER_STATUS o),
     Stateful.initial).
Proof.
  destruct e as [sensor value].
  unfold Stateful.check_sensor, check_sensor, mbind, mret,
    Stateful.Eval_bind, Stateful.Eval_ret.
  cbn [Stateful.SENSOR_THRESHOLDS_get Stateful.thresholds Stateful.initial].
  fold (SENSOR_THRESHOLDS_get sensor).
  destruct (truthy (SENSOR_THRESHOLDS_get sensor)); [|reflexivity].
  pose proof (getSensorStatus_store sensor value Stateful.initial) as E.
  pose proof (proj1 (initial_store_agrees sensor value)) as R.
  destruct (Stateful.getSensorStatus sensor value Stateful.initial)
    as [status st']. cbn [fst snd] in E, R. subst st' status.
  rewrite set_property_fmap.
  generalize (JS.set_property statuses sensor (getSensorStatus sensor value)).
  intros m. now destruct (getSensorStatus sensor value), overallStatus.
Qed.

(** In the store the module starts with, the aggregate program returns what
    [calculateWaterQuality] computes, each status as its string. *)
Lemma initial_aggregate_agrees (d : list (string * float)) :
  (Stateful.calculateWaterQuality d Stateful.initial).1
  = {| Stateful.overall :=
         Stateful.WATER_STATUS (overall (calculateWaterQuality d));
       Stateful.sensors :=
         Stateful.WATER_STATUS <$> sensors (calculateWaterQuality d);
       Stateful.isPotable := isPotable (calculateWaterQuality d) |}.
Proof.
  assert (F : forall d statuses overallStatus,
    Stateful.for_of Stateful.check_sensor d
      (Stateful.WATER_STATUS <$> statuses,
       Stateful.WATER_STATUS overallStatus) Stateful.initial
    = (let '(m, o) := fold_left check_sensor d (statuses, overallStatus) in
       (Stateful.WATER_STATUS <$> m, Stateful.WATER_STATUS o),
       Stateful.initial)).
  { clear d. induction d as [|e d IH]; intros statuses overallStatus;
      [reflexivity|].
    cbn [Stateful.for_of fold_left]. unfold mbind, Stateful.Eval_bind.
    rewrite initial_check_sensor_agrees.
    destruct (check_sensor (statuses, overallStatus) e) as [m o].
    apply IH. }
  unfold Stateful.calculateWaterQuality, calculateWaterQuality, mbind, mret,
    Stateful.Eval_bind, Stateful.Eval_ret, Stateful.WATER_STATUS_get.
  cbn [Stateful.water_status Stateful.initial].
  pose proof (F d ∅ SAFE) as E. rewrite fmap_empty in E.
  rewrite E.
  destruct (fold_left check_sensor d (∅, SAFE)) as [m o].
  cbn [fst snd overall sensors isPotable]. f_equal.
  apply (WATER_STATUS_eqb o SAFE).
Qed.

(** C7.  Whatever the threshold table and the status strings hold, and
    whatever calls of the three exported functions were made before and
    in between, two calls of [getSensorStatus] with the same kind and
    value return the same status, two calls of [getSafeRangePercentage]
    the same percentage, and the store is left as it was found: the
    results depend on the arguments and on the table only. *)
Theorem identical_inputs_identical_outputs (st : Stateful.Store)
    (before between : list Stateful.Call) (k : string) (v : float) :
  let st1 := (Stateful.calls before st).2 in
  let status1 := Stateful.getSensorStatus k v st1 in
  let status2 :=
    Stateful.getSensorStatus k v (Stateful.calls between status1.2).2 in
  let percentage1 := Stateful.getSafeRangePercentage k v st1 in
  let percentage2 :=
    Stateful.getSafeRangePercentage k v
      (Stateful.calls between percentage1.2).2 in
  status1.1 = status2.1 /\ percentage1.1 = percentage2.1
  /\ status2.2 = st /\ percentage2.2 = st.
Proof.
  cbv zeta.
  rewrite !calls_store, !getSensorStatus_store, !getSafeRangePercentage_store.
  repeat split; reflexivity.
Qed.

End Determinism.

(** ** Rounding keeps the order

    What the edge cases of the gauge need from the binary64 operations:
    rounding to nearest never moves a result across a binary64 number. *)

Section Rounding.
Local Open Scope Z_scope.

Lemma shr_1_div2 mrs : 0 <= shr_m mrs -> shr_m (shr_1 mrs) = shr_m mrs / 2.
Proof.
  destruct mrs as [m r s]. cbn [shr_m shr_1]. intros H.
  destruct m as [|[p|p|]|p]; cbn [shr_m]; try lia; try reflexivity.
  - rewrite Pos2Z.inj_xI. apply Z.div_unique with 1; lia.
  - rewrite Pos2Z.inj_xO. apply Z.div_unique with 0; lia.
Qed.

Lemma iter_shr_1_div p mrs :
  0 <= shr_m mrs ->
  shr_m (SpecFloat.iter_pos shr_1 p mrs) = shr_m mrs / 2 ^ Z.pos p.
Proof.
  revert mrs. induction p as [p IH|p IH|]; intros mrs H;
    cbn [SpecFloat.iter_pos].
  - rewrite IH by (apply iter_shr_1_nonneg, shr_1_nonneg, H).
    rewrite IH by (apply shr_1_nonneg, H).
    rewrite shr_1_div2 by exact H.
    assert (E : 2 ^ Z.pos p~1 = 2 * (2 ^ Z.pos p * 2 ^ Z.pos p)).
    { rewrite Pos2Z.inj_xI.
      replace (2 * Z.pos p + 1) with (1 + (Z.pos p + Z.pos p)) by lia.
      rewrite !Z.pow_add_r by lia. reflexivity. }
    rewrite E, !Z.div_div by lia. reflexivity.
  - rewrite IH by (apply iter_shr_1_nonneg, H).
    rewrite IH by exact H.
    assert (E : 2 ^ Z.pos p~0 = 2 ^ Z.pos p * 2 ^ Z.pos p).
    { replace (Z.pos p~0) with (Z.pos p + Z.pos p) by lia.
      now rewrite Z.pow_add_r by lia. }
    rewrite E, !Z.div_div by lia. reflexivity.
  - now apply shr_1_div2.
Qed.

(** Truncation to the exponent [fexp] asks for. *)
Lemma shr_fexp_spec m e l :
  0 <= m ->
  let e' := Z.max e (fexp prec emax (Zdigits2 m + e)) in
  shr_m (fst (shr_fexp prec emax m e l)) = m / 2 ^ (e' - e)
  /\ snd (shr_fexp prec emax m e l) = e'.
Proof.
  intros H e'. subst e'. unfold shr_fexp, shr.
  assert (H0 : shr_m (shr_record_of_loc m l) = m) by (destruct l as [|[]]; reflexivity).
  set (g := fexp prec emax (Zdigits2 m + e)).
  destruct (g - e) as [|p|p] eqn:E; cbn [fst snd].
  - replace (Z.max e g) with e by lia. rewrite Z.sub_diag, Z.div_1_r. auto.
  - replace (Z.max e g) with g by lia. rewrite iter_shr_1_div by lia.
    rewrite H0, E. split; [reflexivity | lia].
  - replace (Z.max e g) with e by lia. rewrite Z.sub_diag, Z.div_1_r. auto.
Qed.

Lemma pow2_pos n : 0 <= n -> 0 < 2 ^ n.
Proof. intros. now apply Z.pow_pos_nonneg. Qed.

Lemma pow2_split a b : 0 <= a -> 0 <= b -> 2 ^ (a + b) = 2 ^ a * 2 ^ b.
Proof. intros. now apply Z.pow_add_r. Qed.

(** Truncating [m·2^e] to the exponent [fexp] asks for keeps it above every
    binary64 number [mc·2^ec] it was above. *)
Lemma trunc_ge (mc : positive) (ec m e : Z) :
  Z.pos mc < 2 ^ 53 -> -1074 <= ec -> 0 <= m -> -2200 <= e ->
  dval (Z.pos mc) ec <= dval m e ->
  let e' := Z.max e (fexp prec emax (Zdigits2 m + e)) in
  dval (Z.pos mc) ec <= dval (m / 2 ^ (e' - e)) e'.
Proof.
  intros Hmc Hec Hm He Hle e'. unfold dval in *.
  assert (HA : 0 < 2 ^ (e + 2200)) by (apply pow2_pos; lia).
  assert (HC : 0 < 2 ^ (ec + 2200)) by (apply pow2_pos; lia).
  destruct m as [|p|p]; [nia | | lia].
  destruct (Z.le_gt_cases e' e) as [Hg | Hg].
  { replace e' with e by lia. now rewrite Z.sub_diag, Z.div_1_r. }
  assert (Ee' : e' = fexp prec emax (Zdigits2 (Z.pos p) + e)) by lia.
  clearbody e'. cbn [Zdigits2] in Ee'.
  pose proof (digits2_bounds p) as [Hlo Hhi].
  set (d := Z.pos (digits2_pos p)) in *.
  unfold fexp, SpecFloat.emin, prec, emax in Ee'.
  set (n := e' - e). assert (Hn : 0 < n) by lia.
  assert (HN : 0 < 2 ^ n) by (apply pow2_pos; lia).
  assert (EA : 2 ^ (e' + 2200) = 2 ^ n * 2 ^ (e + 2200)).
  { rewrite <- pow2_split by lia. f_equal. lia. }
  destruct (Z.le_gt_cases e' ec) as [Hc | Hc].
  - (* the grid of the truncation contains [mc·2^ec] *)
    assert (EC : 2 ^ (ec + 2200) = 2 ^ (ec - e') * 2 ^ (e' + 2200)).
    { rewrite <- pow2_split by lia. f_equal. lia. }
    assert (HD : 0 < 2 ^ (ec - e')) by (apply pow2_pos; lia).
    rewrite EC, Z.mul_assoc. apply Z.mul_le_mono_nonneg_r; [lia|].
    apply Z.div_le_lower_bound; [lia|].
    rewrite EC, EA in Hle.
    apply Z.mul_le_mono_pos_r with (p := 2 ^ (e + 2200)); [lia|].
    lia.
  - (* [mc·2^ec] is below the binade of [m·2^e] *)
    assert (Ed : e' = d + e - 53) by lia.
    assert (H52 : 2 ^ 52 <= Z.pos p / 2 ^ n).
    { apply Z.div_le_lower_bound; [lia|].
      replace (d - 1) with (n + 52) in Hlo by lia.
      now rewrite pow2_split in Hlo by lia. }
    assert (H1 : 2 ^ (ec + 1 + 2200) <= 2 ^ (e' + 2200))
      by (apply Z.pow_le_mono_r; lia).
    replace (ec + 1 + 2200) with (1 + (ec + 2200)) in H1 by lia.
    rewrite pow2_split in H1 by lia. change (2 ^ 1) with 2 in H1.
    change (2 ^ 53) with (2 ^ 52 * 2) in Hmc.
    set (P := 2 ^ 52) in *. set (C := 2 ^ (ec + 2200)) in *.
    set (E := 2 ^ (e' + 2200)) in *.
    assert (Z.pos mc * C <= P * 2 * C) by nia.
    assert (P * E <= Z.pos p / 2 ^ n * E) by (apply Z.mul_le_mono_nonneg_r; lia).
    nia.
Qed.


Lemma round_nearest_even_ge m l : m <= round_nearest_even m l.
Proof.
  unfold round_nearest_even.
  destruct l as [|[]]; try destruct (Z.even m); lia.
Qed.

Lemma dval_rank a ea b eb :
  -1074 <= ea -> -1074 <= eb ->
  dval a ea <= dval b eb <-> a * 2 ^ (ea + 1074) <= b * 2 ^ (eb + 1074).
Proof.
  intros Ha Hb. unfold dval.
  replace (ea + 2200) with (ea + 1074 + 1126) by lia.
  replace (eb + 2200) with (eb + 1074 + 1126) by lia.
  rewrite (pow2_split (ea + 1074) 1126), (pow2_split (eb + 1074) 1126) by lia.
  rewrite !Z.mul_assoc.
  assert (0 < 2 ^ 1126) by reflexivity.
  split; intros H'.
  - now apply Z.mul_le_mono_pos_r in H'.
  - now apply Z.mul_le_mono_pos_r.
Qed.

(** The sign given to [binary_round_aux] is the sign of its result. *)
Lemma binary_round_aux_sign s m e l :
  let r := binary_round_aux prec emax s m e l in
  SFrank r = cond_Zopp s (SFrank (SFabs r)).
Proof.
  cbv zeta. unfold binary_round_aux.
  destruct (shr_fexp prec emax m e l) as [mrs' e'].
  destruct (shr_fexp prec emax _ e' loc_Exact) as [mrs'' e''].
  destruct (shr_m mrs''); [destruct s; reflexivity | | destruct s; reflexivity].
  destruct (e'' <=? emax - prec); reflexivity.
Qed.

(** Rounding to nearest keeps [m·2^e] above every binary64 number
    [mc·2^ec] it was above. *)
Lemma binary_round_aux_ge s (mc : positive) (ec m e : Z) l :
  bounded prec emax mc ec = true -> 0 <= m -> -2200 <= e ->
  dval (Z.pos mc) ec <= dval m e ->
  Z.pos mc * 2 ^ (ec + 1074)
  <= SFrank (SFabs (binary_round_aux prec emax s m e l)).
Proof.
  intros Hc Hm He Hle.
  pose proof (finite_rank_pos _ _ Hc) as Hcr.
  apply bounded_inv in Hc as (Hec & Hmc & _).
  unfold binary_round_aux.
  pose proof (shr_fexp_spec m e l Hm) as [Em1 Ee1].
  pose proof (shr_fexp_nonneg m e l Hm) as Hm1.
  pose proof (trunc_ge mc ec m e Hmc ltac:(lia) Hm He Hle) as H1.
  cbv zeta in Em1, Ee1, H1. rewrite <- Em1, <- Ee1 in H1.
  assert (He1 : -1074 <= snd (shr_fexp prec emax m e l)).
  { rewrite Ee1. unfold fexp, SpecFloat.emin, prec, emax. lia. }
  destruct (shr_fexp prec emax m e l) as [mrs1 e1]. cbn [fst snd] in *.
  clear Em1 Ee1.
  set (m2 := round_nearest_even (shr_m mrs1) (loc_of_shr_record mrs1)).
  assert (Hm2 : shr_m mrs1 <= m2) by apply round_nearest_even_ge.
  assert (H2 : dval (Z.pos mc) ec <= dval m2 e1).
  { etransitivity; [exact H1|]. unfold dval.
    apply Z.mul_le_mono_nonneg_r; [|exact Hm2].
    apply Z.pow_nonneg. lia. }
  pose proof (shr_fexp_spec m2 e1 loc_Exact ltac:(lia)) as [Em3 Ee3].
  pose proof (trunc_ge mc ec m2 e1 Hmc ltac:(lia) ltac:(lia) ltac:(lia) H2)
    as H3.
  cbv zeta in Em3, Ee3, H3. rewrite <- Em3, <- Ee3 in H3.
  assert (He3 : -1074 <= snd (shr_fexp prec emax m2 e1 loc_Exact))
    by (rewrite Ee3; lia).
  destruct (shr_fexp prec emax m2 e1 loc_Exact) as [mrs3 e3].
  cbn [fst snd] in *. clear Em3 Ee3.
  apply dval_rank in H3; [|lia..].
  destruct (shr_m mrs3) as [|p3|p3].
  - lia.
  - destruct (e3 <=? emax - prec); cbn [SFabs SFrank cond_Zopp]; lia.
  - assert (0 < 2 ^ (e3 + 1074)) by (apply pow2_pos; lia). nia.
Qed.


(** [x >= 1] gives [x * c >= c] after rounding, for a positive binary64
    constant [c]. *)
Lemma SFmul_ge_const x (mc : positive) (ec : Z) :
  valid_binary x = true -> bounded prec emax mc ec = true ->
  2 ^ 1074 <= SFrank x ->
  Z.pos mc * 2 ^ (ec + 1074)
  <= SFrank (SF64mul x (S754_finite false mc ec)).
Proof.
  intros Hx Hc H1. pose proof (finite_rank_pos _ _ Hc) as Hcr.
  assert (P : 0 < 2 ^ 1074) by reflexivity.
  destruct x as [sx|[]| |[] mx ex]; cbn [SFrank cond_Zopp] in H1; try lia.
  - cbn [SF64mul SFmul xorb SFrank cond_Zopp]. lia.
  - unfold SF64mul. cbn [SFmul xorb].
    rewrite binary_round_aux_sign. cbn [cond_Zopp].
    pose proof Hc as Hc'. apply bounded_inv in Hc' as (Hec & _ & _).
    apply bounded_inv in Hx as (Hex & _ & _).
    apply binary_round_aux_ge; [assumption | lia | lia |].
    unfold dval. rewrite Pos2Z.inj_mul.
    assert (HC : 0 < 2 ^ (ec + 1126)) by (apply pow2_pos; lia).
    replace (ec + 2200) with (1074 + (ec + 1126)) by lia.
    replace (ex + ec + 2200) with (ex + 1074 + (ec + 1126)) by lia.
    rewrite (pow2_split 1074 (ec + 1126)) by lia.
    rewrite (pow2_split (ex + 1074) (ec + 1126)) by lia.
    set (A := 2 ^ (ex + 1074)) in *. set (B := 2 ^ 1074) in *.
    set (C := 2 ^ (ec + 1126)) in *. clearbody A B C.
    assert (Z.pos mc * (B * C) <= Z.pos mc * (Z.pos mx * A * C)).
    { apply Z.mul_le_mono_nonneg_l; [lia|].
      apply Z.mul_le_mono_nonneg_r; lia. }
    lia.
Qed.

(** [x >= y > 0] gives [x / y >= 1] after rounding. *)
Lemma SFdiv_ge_one x (my : positive) (ey : Z) :
  valid_binary x = true -> bounded prec emax my ey = true ->
  Z.pos my * 2 ^ (ey + 1074) <= SFrank x ->
  2 ^ 1074 <= SFrank (SF64div x (S754_finite false my ey)).
Proof.
  intros Hx Hy H1. pose proof (finite_rank_pos _ _ Hy) as Hyr.
  destruct x as [sx|[]| |[] mx ex]; cbn [SFrank cond_Zopp] in H1; try lia.
  - cbn [SF64div SFdiv xorb SFrank cond_Zopp].
    apply Z.pow_le_mono_r; lia.
  - unfold SF64div. cbn [SFdiv xorb]. unfold SFdiv_core_binary.
    cbn [valid_binary] in Hx.
    pose proof (digits2_bounds mx) as [Hxlo Hxhi].
    pose proof (digits2_bounds my) as [Hylo Hyhi].
    apply bounded_inv in Hx as (Hex & _ & _).
    apply bounded_inv in Hy as (Hey & _ & _).
    cbn [Zdigits2].
    set (d1 := Z.pos (digits2_pos mx)) in *.
    set (d2 := Z.pos (digits2_pos my)) in *.
    set (e' := Z.min (fexp prec emax (d1 + ex - (d2 + ey))) (ex - ey)).
    assert (He' : -2200 <= e' <= ex - ey)
      by (subst e'; unfold fexp, SpecFloat.emin, prec, emax; lia).
    set (s := ex - ey - e'). assert (Hs : 0 <= s) by lia.
    set (m' := match s with Z.pos _ => Z.shiftl (Z.pos mx) s
                          | 0 => Z.pos mx | Z.neg _ => 0 end).
    assert (Em' : m' = Z.pos mx * 2 ^ s).
    { subst m'. destruct s; [cbn; lia | | lia].
      now rewrite Z.shiftl_mul_pow2 by lia. }
    clearbody m'.
    pose proof (Z_div_mod m' (Z.pos my) eq_refl) as Hd.
    unfold Z.div. destruct (Z.div_eucl m' (Z.pos my)) as [q r] eqn:Eq.
    assert (Eq' : q = m' / Z.pos my) by (unfold Z.div; now rewrite Eq).
    assert (HS : 0 < 2 ^ s) by (apply pow2_pos; lia).
    assert (Hq : 0 <= q) by nia.
    rewrite binary_round_aux_sign. cbn [cond_Zopp].
    change (2 ^ 1074) with (Z.pos (2 ^ 52) * 2 ^ (-52 + 1074)).
    apply binary_round_aux_ge; [reflexivity | exact Hq | lia |].
    unfold dval. change (Z.pos (2 ^ 52) * 2 ^ (-52 + 2200)) with (2 ^ 2200).
    destruct (Z.le_gt_cases e' 0) as [Hneg | Hpos].
    + (* the quotient is at least [2^(-e')] *)
      assert (Hq' : 2 ^ (- e') <= q).
      { rewrite Eq'. apply Z.div_le_lower_bound; [lia|]. rewrite Em'.
        assert (HA : 0 < 2 ^ (ey + 1074)) by (apply pow2_pos; lia).
        apply Z.mul_le_mono_pos_r with (p := 2 ^ (ey + 1074)); [lia|].
        replace (Z.pos mx * 2 ^ s * 2 ^ (ey + 1074))
          with (Z.pos mx * 2 ^ (ex + 1074) * 2 ^ (- e')).
        2:{ rewrite <- !Z.mul_assoc, <- !pow2_split by lia.
            do 2 f_equal. lia. }
        replace (Z.pos my * 2 ^ (- e') * 2 ^ (ey + 1074))
          with (Z.pos my * 2 ^ (ey + 1074) * 2 ^ (- e')) by ring.
        apply Z.mul_le_mono_nonneg_r; [|exact H1].
        apply Z.pow_nonneg. lia. }
      replace 2200 with (- e' + (e' + 2200)) at 1 by lia.
      rewrite pow2_split by lia.
      apply Z.mul_le_mono_nonneg_r; [|exact Hq'].
      apply Z.pow_nonneg. lia.
    + (* the quotient has more than 52 bits *)
      assert (Hq' : 1 <= q).
      { rewrite Eq'. apply Z.div_le_lower_bound; [lia|]. rewrite Em'.
        assert (Hs' : d2 - (d1 - 1) <= s).
        { subst s e'. unfold fexp, SpecFloat.emin, prec, emax in *. lia. }
        assert (2 ^ d2 <= 2 ^ (d1 - 1) * 2 ^ s).
        { rewrite <- pow2_split by lia. apply Z.pow_le_mono_r; lia. }
        assert (2 ^ (d1 - 1) * 2 ^ s <= Z.pos mx * 2 ^ s)
          by (apply Z.mul_le_mono_nonneg_r; lia).
        lia. }
      assert (2 ^ 2200 <= 2 ^ (e' + 2200)) by (apply Z.pow_le_mono_r; lia).
      assert (0 < 2 ^ (e' + 2200)) by (apply pow2_pos; lia).
      nia.
Qed.


Lemma SFabs_rank x : SFrank (SFabs x) = Z.abs (SFrank x).
Proof.
  destruct x as [s|s| |s m e]; cbn [SFabs SFrank cond_Zopp]; try reflexivity.
  - destruct s; reflexivity.
  - assert (0 <= Z.pos m * 2 ^ (e + 1074))
      by (apply Z.mul_nonneg_nonneg; [lia | apply Z.pow_nonneg; lia]).
    destruct s; cbn [cond_Zopp]; lia.
Qed.

Lemma iter_xO_pow2 (m d : positive) :
  Z.pos (Pos.iter xO m d) = Z.pos m * 2 ^ Z.pos d.
Proof.
  induction d as [|d IH] using Pos.peano_ind.
  - cbn. lia.
  - rewrite Pos.iter_succ, Pos2Z.inj_xO, IH, Pos2Z.inj_succ.
    rewrite Z.pow_succ_r by lia. ring.
Qed.

(** Aligning a mantissa to a smaller exponent keeps the value. *)
Lemma shl_align_spec (m : positive) (e e' : Z) :
  let '(m', e'') := shl_align m e e' in
  e'' = Z.min e e' /\ Z.pos m' = Z.pos m * 2 ^ (e - e'').
Proof.
  unfold shl_align. destruct (e' - e) as [|d|d] eqn:E.
  - split; [lia|]. rewrite Z.sub_diag. lia.
  - split; [lia|]. rewrite Z.sub_diag. lia.
  - split; [lia|]. rewrite iter_xO_pow2. do 2 f_equal. lia.
Qed.

Lemma binary_round_sign s (p : positive) (e : Z) :
  SFrank (binary_round prec emax s p e)
  = cond_Zopp s (SFrank (SFabs (binary_round prec emax s p e))).
Proof.
  unfold binary_round. destruct (shl_align _ _ _).
  apply binary_round_aux_sign.
Qed.

Lemma binary_round_ge s (mc : positive) (ec : Z) (p : positive) (e : Z) :
  bounded prec emax mc ec = true -> -1074 <= e ->
  Z.pos mc * 2 ^ (ec + 1074) <= Z.pos p * 2 ^ (e + 1074) ->
  Z.pos mc * 2 ^ (ec + 1074)
  <= SFrank (SFabs (binary_round prec emax s p e)).
Proof.
  intros Hc He H. unfold binary_round.
  pose proof (shl_align_spec p e (fexp prec emax (Z.pos (digits2_pos p) + e)))
    as Ha.
  destruct (shl_align _ _ _) as [mz ez]. destruct Ha as [Ez Em].
  assert (Hez : -1074 <= ez <= e)
    by (unfold fexp, SpecFloat.emin, prec, emax in Ez; lia).
  apply binary_round_aux_ge; [assumption | lia | lia |].
  pose proof Hc as Hc'. apply bounded_inv in Hc' as (Hec & _ & _).
  apply dval_rank; [lia | lia |].
  rewrite Em, <- Z.mul_assoc, <- pow2_split by lia.
  now replace (e - ez + (ez + 1074)) with (e + 1074) by lia.
Qed.

(** The difference of two finite numbers, before rounding, is the difference
    of their ranks; rounding keeps its sign and keeps it beyond every
    binary64 number it was beyond. *)
Lemma SFsub_bounds x sy (my : positive) (ey : Z) (mc : positive) (ec : Z) :
  valid_binary x = true -> bounded prec emax my ey = true ->
  bounded prec emax mc ec = true ->
  - 2 ^ 2100 < SFrank x < 2 ^ 2100 -> SFis_nan x = false ->
  let y := S754_finite sy my ey in
  let delta := SFrank x - SFrank y in
  let r := SFrank (SF64sub x y) in
  let c := Z.pos mc * 2 ^ (ec + 1074) in
  (c <= delta -> c <= r) /\ (delta <= - c -> r <= - c)
  /\ (delta <= 0 -> r <= 0).
Proof.
  intros Hx Hy Hc Hfin Hnan y delta r c. subst y delta r c.
  pose proof (finite_rank_pos _ _ Hc) as Hcr.
  destruct x as [sx|[]| |sx mx ex]; try discriminate Hnan;
    cbn [SFrank cond_Zopp] in Hfin; try lia.
  - (* zero *)
    cbn [SF64sub SFsub SFrank].
    destruct sy; cbn [negb cond_Zopp]; lia.
  - unfold SF64sub. cbn [SFsub SFrank].
    pose proof (shl_align_spec mx ex (Z.min ex ey)) as Hax.
    pose proof (shl_align_spec my ey (Z.min ex ey)) as Hay.
    destruct (shl_align mx ex _) as [ax ex'], (shl_align my ey _) as [ay ey'].
    cbn [fst].
    destruct Hax as [Eex Eax], Hay as [Eey Eay].
    apply bounded_inv in Hx as (Hex & _ & _).
    pose proof Hy as Hy'. apply bounded_inv in Hy' as (Hey & _ & _).
    set (ez := Z.min ex ey) in *.
    assert (Hez : -1074 <= ez) by lia.
    set (D := cond_Zopp sx (Z.pos ax) - cond_Zopp sy (Z.pos ay)).
    assert (ED : D * 2 ^ (ez + 1074)
                 = cond_Zopp sx (Z.pos mx * 2 ^ (ex + 1074))
                   - cond_Zopp sy (Z.pos my * 2 ^ (ey + 1074))).
    { assert (Ex : Z.pos ax * 2 ^ (ez + 1074) = Z.pos mx * 2 ^ (ex + 1074)).
      { rewrite Eax, <- Z.mul_assoc, <- pow2_split by lia.
        do 2 f_equal. lia. }
      assert (Ey : Z.pos ay * 2 ^ (ez + 1074) = Z.pos my * 2 ^ (ey + 1074)).
      { rewrite Eay, <- Z.mul_assoc, <- pow2_split by lia.
        do 2 f_equal. lia. }
      subst D. rewrite Z.mul_sub_distr_r.
      destruct sx, sy; cbn [cond_Zopp]; lia. }
    rewrite <- ED. clearbody D.
    assert (HZ : 0 < 2 ^ (ez + 1074)) by (apply pow2_pos; lia).
    destruct D as [|p|p]; cbn [binary_normalize].
    + cbn [SFrank]. lia.
    + rewrite binary_round_sign. cbn [cond_Zopp].
      repeat split; intros H; try nia.
      now apply binary_round_ge.
    + rewrite binary_round_sign. cbn [cond_Zopp].
      assert (0 <= SFrank (SFabs (binary_round prec emax true p ez)))
        by (rewrite SFabs_rank; lia).
      repeat split; intros H'; try nia.
      assert (Z.pos mc * 2 ^ (ec + 1074)
              <= SFrank (SFabs (binary_round prec emax true p ez))); [|lia].
      apply binary_round_ge; [assumption | lia |].
      rewrite <- Pos2Z.opp_pos in H'. lia.
Qed.

End Rounding.

(** ** The gauge formulas beyond the edges *)

Section Edges.
Local Open Scope Z_scope.

(** [v >= hi > 0] gives [(v / hi) * 100 >= 100]. *)
Lemma one_sided_above (hi v : float) (mh : positive) (eh : Z) :
  Prim2SF hi = S754_finite false mh eh ->
  rank hi <= rank v ->
  rank 100 <= rank ((v / hi) * 100).
Proof.
  intros Ehi Hle.
  pose proof (Prim2SF_valid hi) as Hhi. rewrite Ehi in Hhi.
  cbn [valid_binary] in Hhi.
  unfold rank in Hle. rewrite Ehi in Hle. cbn [SFrank cond_Zopp] in Hle.
  assert (H1 : 2 ^ 1074 <= rank (v / hi)).
  { unfold rank. rewrite div_spec, Ehi.
    apply SFdiv_ge_one; [apply Prim2SF_valid | exact Hhi | exact Hle]. }
  unfold rank at 2. rewrite mul_spec.
  change (Prim2SF 100) with (S754_finite false 7036874417766400 (-46)).
  change (rank 100) with (7036874417766400 * 2 ^ (-46 + 1074)).
  apply SFmul_ge_const; [apply Prim2SF_valid | reflexivity | exact H1].
Qed.

(** [|v - 7.5| >= 1] gives [100 - (|v - 7.5| / 1) * 100 <= 0]. *)
Lemma two_sided_outside (v : float) :
  is_finite v = true ->
  rank v <= rank 6.5 \/ rank 8.5 <= rank v ->
  rank (100 - (abs (v - 7.5) / 1) * 100) <= 0.
Proof.
  intros [Hn Hfin]%is_finite_spec Hout.
  assert (Hd : 2 ^ 1074 <= rank (abs (v - 7.5))).
  { unfold rank. rewrite abs_spec, SFabs_rank, sub_spec.
    change (Prim2SF 7.5) with (S754_finite false 8444249301319680 (-50)).
    destruct (SFsub_bounds (Prim2SF v) false 8444249301319680 (-50)
                (2 ^ 52) (-52) (Prim2SF_valid v) eq_refl eq_refl Hfin
                ltac:(now rewrite <- is_nan_spec)) as (Hge & Hle & _).
    change (Z.pos (2 ^ 52) * 2 ^ (-52 + 1074)) with (2 ^ 1074) in Hge, Hle.
    fold (rank v) in Hge, Hle.
    change (SFrank (S754_finite false 8444249301319680 (-50)))
      with (rank 7.5) in Hge, Hle.
    assert (E1 : rank 8.5 - rank 7.5 = 2 ^ 1074) by (vm_compute; reflexivity).
    assert (E2 : rank 6.5 - rank 7.5 = - 2 ^ 1074) by (vm_compute; reflexivity).
    destruct Hout as [H | H].
    - specialize (Hle ltac:(lia)). lia.
    - specialize (Hge ltac:(lia)). lia. }
  assert (Hq : 2 ^ 1074 <= rank (abs (v - 7.5) / 1)).
  { unfold rank. rewrite div_spec.
    change (Prim2SF 1) with (S754_finite false (2 ^ 52) (-52)).
    apply SFdiv_ge_one; [apply Prim2SF_valid | reflexivity | exact Hd]. }
  assert (Hp : rank 100 <= rank ((abs (v - 7.5) / 1) * 100)).
  { unfold rank at 2. rewrite mul_spec.
    change (Prim2SF 100) with (S754_finite false 7036874417766400 (-46)).
    change (rank 100) with (7036874417766400 * 2 ^ (-46 + 1074)).
    apply SFmul_ge_const; [apply Prim2SF_valid | reflexivity | exact Hq]. }
  set (p := ((abs (v - 7.5) / 1) * 100)%float) in *.
  assert (H100 : 0 < rank 100) by (vm_compute; reflexivity).
  unfold rank. rewrite sub_spec.
  pose proof (Prim2SF_valid p) as Hv. unfold rank in Hp at 2.
  destruct (Prim2SF p) as [s|[]| |[] mp ep] eqn:Ep;
    cbn [SFrank cond_Zopp] in Hp; try lia.
  - (* overflow to infinity *) now vm_compute.
  - change (Prim2SF 100) with (S754_finite false 7036874417766400 (-46)).
    destruct (SFsub_bounds (S754_finite false 7036874417766400 (-46))
                false mp ep (2 ^ 52) (-52) eq_refl Hv eq_refl
                ltac:(vm_compute; split; reflexivity) eq_refl)
      as (_ & _ & Hneg).
    apply Hneg. cbn [SFrank cond_Zopp].
    change (7036874417766400 * 2 ^ (-46 + 1074)) with (rank 100). lia.
Qed.

End Edges.

Section PercentageFormulas.
Local Open Scope Z_scope.

(** Rational comparisons with a finite constant [c] of value [q], as
    comparisons of ranks. *)
Lemma Qle_rank_l (c : float) (q : Q) (v : float) :
  is_finite c = true -> (F2Q c == q)%Q -> is_finite v = true ->
  (q <= F2Q v)%Q -> rank c <= rank v.
Proof.
  intros Hc Hq Hv H. pose proof (leb_const_l c q v Hc Hq Hv) as Hb.
  destruct (c <=? v)%float eqn:E; [|contradiction].
  apply is_finite_spec in Hc as [Hc _]. apply is_finite_spec in Hv as [Hv _].
  rewrite leb_rank in E by assumption. now apply Z.leb_le.
Qed.

Lemma Qle_rank_r (c : float) (q : Q) (v : float) :
  is_finite c = true -> (F2Q c == q)%Q -> is_finite v = true ->
  (F2Q v <= q)%Q -> rank v <= rank c.
Proof.
  intros Hc Hq Hv H. pose proof (leb_const_r c q v Hc Hq Hv) as Hb.
  destruct (v <=? c)%float eqn:E; [|contradiction].
  apply is_finite_spec in Hc as [Hc _]. apply is_finite_spec in Hv as [Hv _].
  rewrite leb_rank in E by assumption. now apply Z.leb_le.
Qed.

(** At or above its [max], a reading of a one-sided kind shows as 100. *)
Lemma one_sided_clamped (hi v : float) (mh : positive) (eh : Z) :
  Prim2SF hi = S754_finite false mh eh ->
  is_nan v = false -> rank hi <= rank v ->
  clamp 0 100 ((v / hi) * 100) = 100%float.
Proof.
  intros Ehi Hv Hle. apply clamp_high.
  rewrite leb_rank; [apply Z.leb_le; now apply (one_sided_above hi v mh eh) | reflexivity |].
  apply one_sided_not_nan; [|assumption].
  unfold finite_nonzero. now rewrite Ehi.
Qed.

(** At or beyond the edges 6.5 and 8.5, a ph reading shows as 0. *)
Lemma two_sided_clamped (v : float) :
  is_finite v = true ->
  rank v <= rank 6.5 \/ rank 8.5 <= rank v ->
  clamp 0 100 (100 - (abs (v - 7.5) / 1) * 100) = 0%float.
Proof.
  intros Hv Hout. apply clamp_low.
  rewrite leb_rank; [apply Z.leb_le; now apply two_sided_outside | | reflexivity].
  apply two_sided_not_nan; try reflexivity.
  now apply is_finite_spec in Hv as [Hv _].
Qed.

(** C5.  For every finite reading, [getSafeRangePercentage] computes, in
    binary64 arithmetic, for ph [clamp(0, 100, 100 - (|value - 7.5| / 1) * 100)],
    which is 100 at the midpoint 7.5, 0 at 6.5 and at 8.5, and 0 for every
    value beyond these edges; and for turbidity and tds
    [clamp(0, 100, (value / max) * 100)], which is 0 at 0, 100 at [max] and
    100 for every value above [max]. *)
Theorem percentage_formulas (v : float) :
  JS.isFinite v = true ->
  (getSafeRangePercentage "ph" v
   = clamp 0 100 (100 - (abs (v - 7.5) / 1) * 100)
   /\ getSafeRangePercentage "ph" 7.5 = 100
   /\ getSafeRangePercentage "ph" 6.5 = 0
   /\ getSafeRangePercentage "ph" 8.5 = 0
   /\ ((F2Q v <= 6.5 \/ 8.5 <= F2Q v)%Q
       -> getSafeRangePercentage "ph" v = 0))%float
  /\ (getSafeRangePercentage "turbidity" v = clamp 0 100 ((v / 5) * 100)
      /\ getSafeRangePercentage "turbidity" 0 = 0
      /\ getSafeRangePercentage "turbidity" 5 = 100
      /\ ((5 <= F2Q v)%Q -> getSafeRangePercentage "turbidity" v = 100))%float
  /\ (getSafeRangePercentage "tds" v = clamp 0 100 ((v / 500) * 100)
      /\ getSafeRangePercentage "tds" 0 = 0
      /\ getSafeRangePercentage "tds" 500 = 100
      /\ ((500 <= F2Q v)%Q -> getSafeRangePercentage "tds" v = 100))%float.
Proof.
  intros Hv. unfold JS.isFinite in Hv.
  pose proof Hv as [Hn _]%is_finite_spec.
  repeat split; try reflexivity.
  - intros Hout. rewrite getSafeRangePercentage_ph.
    apply two_sided_clamped; [exact Hv|].
    destruct Hout as [H | H]; [left | right].
    + apply (Qle_rank_r 6.5 6.5%Q v eq_refl); trivial.
      vm_compute; reflexivity.
    + apply (Qle_rank_l 8.5 8.5%Q v eq_refl); trivial.
      vm_compute; reflexivity.
  - intros H.
    apply (one_sided_clamped 5 v _ _ eq_refl Hn).
    apply (Qle_rank_l 5 5%Q v eq_refl); trivial. vm_compute; reflexivity.
  - intros H.
    apply (one_sided_clamped 500 v _ _ eq_refl Hn).
    apply (Qle_rank_l 500 500%Q v eq_refl); trivial. vm_compute; reflexivity.
Qed.

Lemma percentage_formulas_witness :
  getSafeRangePercentage "turbidity" 10 = clamp 0 100 ((10 / 5) * 100)%float
  /\ getSafeRangePercentage "turbidity" 10 = 100%float.
Proof.
  destruct (percentage_formulas 10 eq_refl) as (_ & (H & _ & _ & Hhi) & _).
  split; [exact H | apply Hhi; vm_compute; discriminate].
Defined.

End PercentageFormulas.

(** ** The aggregate as a function of the reading set *)

Section AggregateMore.

Lemma classified_table (k : string) (t : Threshold) :
  SENSOR_THRESHOLDS !! k = Some t -> classified k = true.
Proof. unfold classified, SENSOR_THRESHOLDS_get. now intros ->. Qed.

(** An entry that passes the guard without being in the table has a name
    inherited from [Object.prototype], and its status is Safe. *)
Lemma classified_off_table (k : string) (v : float) :
  classified k = true -> SENSOR_THRESHOLDS !! k = None ->
  getSensorStatus k v = SAFE.
Proof.
  intros Hc Hk. rewrite (getSensorStatus_unknown k v Hk).
  unfold classified in Hc. rewrite (SENSOR_THRESHOLDS_get_unknown k Hk) in Hc.
  now destruct (JS.inherited k).
Qed.

(** A status other than Safe among the classified entries comes from an
    entry of the table. *)
Lemma classified_statuses_table (es : list (string * float)) (s : Status) :
  s <> SAFE ->
  s ∈ classified_statuses es <->
  exists k v, (k, v) ∈ es /\ is_Some (SENSOR_THRESHOLDS !! k)
              /\ getSensorStatus k v = s.
Proof.
  intros Hs. rewrite classified_statuses_elem. split.
  - intros (k & v & Hin & Hc & E). exists k, v. split; [done | split; [|done]].
    destruct (SENSOR_THRESHOLDS !! k) eqn:Hk; [eauto|].
    rewrite (classified_off_table k v Hc Hk) in E. congruence.
  - intros (k & v & Hin & [t Ht] & E). exists k, v.
    split; [done | split; [|done]]. now apply (classified_table k t).
Qed.

Lemma fold_worst_UNSAFE (l : list Status) (o : Status) :
  fold_left worst l o = UNSAFE <-> o = UNSAFE \/ UNSAFE ∈ l.
Proof.
  revert o. induction l as [|s l IH]; intros o; cbn [fold_left].
  - rewrite elem_of_nil. tauto.
  - rewrite IH, elem_of_cons. destruct o, s; cbn; intuition congruence.
Qed.

Lemma fold_worst_SAFE (l : list Status) (o : Status) :
  fold_left worst l o = SAFE <-> o = SAFE /\ Forall (eq SAFE) l.
Proof.
  revert o. induction l as [|s l IH]; intros o; cbn [fold_left].
  - split; [intros ->; split; [done | constructor] | tauto].
  - rewrite IH, Forall_cons. destruct o, s; cbn; intuition congruence.
Qed.


Lemma fold_worst_not_SAFE (l : list Status) :
  fold_left worst l SAFE <> SAFE <-> WARNING ∈ l \/ UNSAFE ∈ l.
Proof.
  rewrite fold_worst_SAFE. split.
  - intros H. induction l as [|s l IH].
    + destruct H. split; [done | constructor].
    + rewrite !elem_of_cons. destruct s.
      * destruct IH as [? | ?]; [|tauto..].
        intros [_ Hl]. apply H. split; [done|]. now constructor.
      * tauto.
      * tauto.
  - intros [H | H] [_ Hl]; rewrite Forall_forall in Hl;
      now specialize (Hl _ H).
Qed.

Lemma overall_reads (es : list (string * float)) :
  let r := calculateWaterQuality es in
  let reads s :=
    exists k v, (k, v) ∈ es /\ is_Some (SENSOR_THRESHOLDS !! k)
                /\ getSensorStatus k v = s in
  (overall r = UNSAFE <-> reads UNSAFE)
  /\ (overall r = WARNING <-> reads WARNING /\ ~ reads UNSAFE)
  /\ (overall r = SAFE <-> ~ reads WARNING /\ ~ reads UNSAFE)
  /\ (isPotable r = true <-> ~ reads WARNING /\ ~ reads UNSAFE).
Proof.
  intros r reads. subst r. rewrite calculateWaterQuality_unfold.
  cbn [overall isPotable].
  set (l := classified_statuses es).
  assert (HU : UNSAFE ∈ l <-> reads UNSAFE)
    by (now apply classified_statuses_table).
  assert (HW : WARNING ∈ l <-> reads WARNING)
    by (now apply classified_statuses_table).
  pose proof (fold_worst_UNSAFE l SAFE) as EU.
  pose proof (fold_worst_not_SAFE l) as EN.
  rewrite HU in EU. rewrite HU, HW in EN.
  assert (EP : Status_eqb (fold_left worst l SAFE) SAFE = true
               <-> fold_left worst l SAFE = SAFE)
    by apply bool_decide_eq_true.
  rewrite EP. clear EP HU HW.
  generalize dependent (fold_left worst l SAFE). intros o EU EN.
  destruct o; intuition congruence.
Qed.


(** X1.  The overall status is decided by the readings whose kind is in the
    table, whatever else the reading set holds: it is Unsafe iff one of them
    is Unsafe, Warning iff one is Warning and none Unsafe, Safe iff none is
    Warning or Unsafe; and [isPotable] holds exactly in the last case. *)
Theorem overall_by_table_readings (es : list (string * float)) :
  let r := calculateWaterQuality es in
  let reads s :=
    exists k v, (k, v) ∈ es /\ is_Some (SENSOR_THRESHOLDS !! k)
                /\ getSensorStatus k v = s in
  (overall r = UNSAFE <-> reads UNSAFE)
  /\ (overall r = WARNING <-> reads WARNING /\ ~ reads UNSAFE)
  /\ (overall r = SAFE <-> ~ reads WARNING /\ ~ reads UNSAFE)
  /\ (isPotable r = true <-> ~ reads WARNING /\ ~ reads UNSAFE).
Proof. exact (overall_reads es). Qed.

Lemma overall_subset (es es' : list (string * float)) :
  (forall e, e ∈ es -> e ∈ es') ->
  (severity (overall (calculateWaterQuality es))
   <= severity (overall (calculateWaterQuality es')))%nat.
Proof.
  intros Hsub.
  destruct (overall_reads es) as (HU & HW & _).
  destruct (overall_reads es') as (HU' & HW' & HS' & _).
  destruct (overall (calculateWaterQuality es)); cbn [severity]; [lia | |].
  - destruct HW as [HW _]. destruct (HW eq_refl) as [(k & v & Hin & Hk & E) _].
    destruct (overall (calculateWaterQuality es')); cbn [severity]; try lia.
    destruct HS' as [HS' _]. destruct (HS' eq_refl) as [Hno _].
    destruct Hno. exists k, v. auto.
  - destruct HU as [HU _]. destruct (HU eq_refl) as (k & v & Hin & Hk & E).
    destruct HU' as [_ HU']. rewrite HU'; [reflexivity|].
    exists k, v. auto.
Qed.

(** X2.  A reading set that contains another one is at least as severe:
    taking readings away never worsens the overall status, adding some never
    improves it. *)
Theorem more_readings_never_improve (es es' : list (string * float)) :
  (forall e, e ∈ es -> e ∈ es') ->
  (severity (overall (calculateWaterQuality es))
   <= severity (overall (calculateWaterQuality es')))%nat.
Proof. apply overall_subset. Qed.

Lemma more_readings_never_improve_witness :
  Nat.le (severity (overall (calculateWaterQuality [("ph", 7.2)])))
         (severity (overall (calculateWaterQuality
                               [("turbidity", 4.5); ("ph", 7.2)]))).
Proof.
  apply more_readings_never_improve. intros e He.
  apply list_elem_of_singleton in He as ->. right. left.
Defined.

Lemma record_status_proto (es : list (string * float))
    (st : gmap string Status) :
  fold_left record_status es st !! "__proto__" = st !! "__proto__".
Proof.
  revert st. induction es as [|[k v] es IH]; intros st; [reflexivity|].
  cbn [fold_left]. rewrite IH. unfold record_status. cbn [fst snd].
  destruct (classified k); [|reflexivity]. unfold JS.set_property.
  destruct (String.eqb_spec k "__proto__") as [-> | Hk]; [reflexivity|].
  now apply lookup_insert_ne.
Qed.

(** With distinct names, the per-sensor map is a function of the set of
    entries. *)
Lemma sensors_lookup (es : list (string * float)) (k : string) (s : Status) :
  NoDup es.*1 ->
  fold_left record_status es ∅ !! k = Some s <->
  exists v, (k, v) ∈ es /\ classified k = true /\ k <> "__proto__"
            /\ s = getSensorStatus k v.
Proof.
  intros Hnd. split.
  - intros H. destruct (String.eqb_spec k "__proto__") as [-> | Hk].
    { rewrite record_status_proto, lookup_empty in H. discriminate. }
    apply record_status_Some in H as [H | (v & Hin & Hc & ->)].
    + now rewrite lookup_empty in H.
    + now exists v.
  - intros (v & Hin & Hc & Hk & ->). now apply record_status_NoDup.
Qed.

(** X3.  The overall status, [isPotable] and the status recorded under each
    name do not depend on the order in which the properties of the reading
    set are visited.  (The keys of [sensors] themselves come in the order
    they were written, which a finite map does not record.) *)
Theorem aggregate_order_independent (es es' : list (string * float)) :
  NoDup es.*1 -> es ≡ₚ es' ->
  let r := calculateWaterQuality es in
  let r' := calculateWaterQuality es' in
  overall r = overall r' /\ isPotable r = isPotable r'
  /\ forall k, sensors r !! k = sensors r' !! k.
Proof.
  intros Hnd Hp. cbv zeta.
  assert (Hnd' : NoDup es'.*1) by (now rewrite <- Hp).
  assert (Hin : forall e, e ∈ es <-> e ∈ es') by (intros e; now rewrite Hp).
  assert (Ho : overall (calculateWaterQuality es)
               = overall (calculateWaterQuality es')).
  { pose proof (overall_subset es es' (fun e => proj1 (Hin e))) as H1.
    pose proof (overall_subset es' es (fun e => proj2 (Hin e))) as H2.
    destruct (overall (calculateWaterQuality es)),
      (overall (calculateWaterQuality es')); cbn [severity] in H1, H2;
      first [reflexivity | lia]. }
  split; [exact Ho|].
  rewrite !calculateWaterQuality_unfold in *. cbn [overall isPotable sensors] in *.
  split; [now rewrite Ho|].
  intros k. apply option_eq. intros s.
  rewrite !sensors_lookup by assumption.
  split; intros (v & H & ?); exists v; (split; [now apply Hin | done]).
Qed.

Lemma aggregate_order_independent_witness :
  overall (calculateWaterQuality [("ph", 9.2); ("tds", 450)])
  = overall (calculateWaterQuality [("tds", 450); ("ph", 9.2)]).
Proof.
  apply (aggregate_order_independent [("ph", 9.2); ("tds", 450)]
           [("tds", 450); ("ph", 9.2)]).
  - apply NoDup_cons. split; [|apply NoDup_singleton].
    intros H%list_elem_of_singleton. discriminate H.
  - apply Permutation_swap.
Defined.

(** X4.  Writing and reading the per-sensor map: every reading whose kind is
    in the table is found under its name with its own status, and whatever
    is found under a name is the status of the reading of that name; nothing
    is ever stored under [__proto__]. *)
Theorem sensors_round_trip (es : list (string * float)) :
  NoDup es.*1 ->
  let r := calculateWaterQuality es in
  (forall k v, (k, v) ∈ es -> is_Some (SENSOR_THRESHOLDS !! k) ->
     sensors r !! k = Some (getSensorStatus k v))
  /\ (forall k s, sensors r !! k = Some s ->
        exists v, (k, v) ∈ es /\ s = getSensorStatus k v)
  /\ sensors r !! "__proto__" = None.
Proof.
  intros Hnd r. subst r. rewrite calculateWaterQuality_unfold.
  cbn [sensors]. split; [|split].
  - intros k v Hin [t Ht]. apply sensors_lookup; [assumption|].
    exists v. split; [done|]. split; [now apply (classified_table k t)|].
    split; [|done]. intros ->. discriminate Ht.
  - intros k s H. apply sensors_lookup in H as (v & ? & _ & _ & ?);
      [|assumption]. now exists v.
  - now rewrite record_status_proto.
Qed.

Lemma sensors_round_trip_witness :
  sensors (calculateWaterQuality [("tds", 450); ("chlorine", 1)]) !! "tds"
  = Some WARNING.
Proof.
  assert (Hnd : NoDup [("tds", 450); ("chlorine", 1)].*1).
  { apply NoDup_cons. split; [|apply NoDup_singleton].
    intros H%list_elem_of_singleton. discriminate H. }
  destruct (sensors_round_trip _ Hnd) as (H & _).
  apply (H "tds" 450); [left | now eexists].
Defined.

End AggregateMore.

(** ** Readings that are NaN, infinite or not positive *)

Section Edge.
Local Open Scope Z_scope.

(** There is one NaN. *)
Lemma is_nan_inv v : is_nan v = true -> v = nan.
Proof.
  rewrite is_nan_spec. intros H. apply Prim2SF_inj.
  change (Prim2SF nan) with S754_nan. now destruct (Prim2SF v).
Qed.

Lemma nan_status_and_gauge (k : string) (t : Threshold) (v : float) :
  SENSOR_THRESHOLDS !! k = Some t -> is_nan v = true ->
  getSensorStatus k v = UNSAFE /\ getSafeRangePercentage k v = nan.
Proof.
  intros Ht ->%is_nan_inv.
  destruct (SENSOR_THRESHOLDS_keys k t Ht) as [-> | [-> | [-> | ->]]];
    split; reflexivity.
Qed.

Lemma gauge_finite_bounds (k : string) (v : float) :
  JS.inherited k = false -> is_nan v = false ->
  is_finite (getSafeRangePercentage k v) = true
  /\ (0 <= F2Q (getSafeRangePercentage k v) <= 100)%Q.
Proof.
  intros Hk Hv. destruct (percentage_bounds k v Hk Hv) as [H0 H1].
  set (p := getSafeRangePercentage k v) in *.
  destruct (leb_true_not_nan _ _ H0) as [_ Hp].
  assert (Hfin : is_finite p = true).
  { apply is_finite_spec. split; [exact Hp|].
    rewrite leb_rank in H0, H1 by (assumption || reflexivity).
    apply Z.leb_le in H0, H1. change (rank 0) with 0 in H0.
    assert (rank 100 < 2 ^ 2100) by (vm_compute; reflexivity).
    assert (0 < 2 ^ 2100) by reflexivity. lia. }
  split; [exact Hfin|]. split.
  - assert (E : (F2Q 0 == 0)%Q) by (vm_compute; reflexivity).
    rewrite <- E. now apply leb_Q.
  - assert (E : (F2Q 100 == 100)%Q) by (vm_compute; reflexivity).
    rewrite <- E. now apply leb_Q.
Qed.

(** The sign of a quotient or product by a positive constant. *)
Lemma SFdiv_nonpos x (my : positive) (ey : Z) :
  valid_binary x = true -> SFrank x <= 0 ->
  SFrank (SF64div x (S754_finite false my ey)) <= 0.
Proof.
  intros Hx Hr.
  destruct x as [s|[]| |[] mx ex]; cbn [SFrank cond_Zopp] in Hr.
  - cbn. lia.
  - cbn. lia.
  - assert (0 < 2 ^ 2100) by reflexivity. lia.
  - cbn. lia.
  - unfold SF64div. cbn [SFdiv xorb].
    destruct (SFdiv_core_binary _ _ _ _ _ _) as [[mz ez] lz].
    rewrite binary_round_aux_sign, SFabs_rank. cbn [cond_Zopp]. lia.
  - pose proof (finite_rank_pos _ _ Hx). lia.
Qed.

Lemma SFmul_nonpos x (my : positive) (ey : Z) :
  valid_binary x = true -> SFrank x <= 0 ->
  SFrank (SF64mul x (S754_finite false my ey)) <= 0.
Proof.
  intros Hx Hr.
  destruct x as [s|[]| |[] mx ex]; cbn [SFrank cond_Zopp] in Hr.
  - cbn. lia.
  - cbn. lia.
  - assert (0 < 2 ^ 2100) by reflexivity. lia.
  - cbn. lia.
  - unfold SF64mul. cbn [SFmul xorb].
    rewrite binary_round_aux_sign, SFabs_rank. cbn [cond_Zopp]. lia.
  - pose proof (finite_rank_pos _ _ Hx). lia.
Qed.

(** [v <= 0 < hi] gives [(v / hi) * 100 <= 0]. *)
Lemma one_sided_below (hi v : float) (mh : positive) (eh : Z) :
  Prim2SF hi = S754_finite false mh eh ->
  rank v <= 0 -> rank ((v / hi) * 100) <= 0.
Proof.
  intros Ehi Hle. unfold rank. rewrite mul_spec.
  change (Prim2SF 100) with (S754_finite false 7036874417766400 (-46)).
  apply SFmul_nonpos; [apply Prim2SF_valid|].
  rewrite div_spec, Ehi. apply SFdiv_nonpos; [apply Prim2SF_valid | exact Hle].
Qed.

End Edge.

(** ** Status and gauge together *)

Section StatusAndGauge.
Local Open Scope Z_scope.

(** X5.  A reading that is NaN, for a kind of the table, is classified
    Unsafe and its gauge position is NaN; a reading set that holds it is not
    potable. *)
Theorem nan_reading_unsafe (k : string) (t : Threshold) (v : float)
    (es : list (string * float)) :
  SENSOR_THRESHOLDS !! k = Some t -> is_nan v = true ->
  getSensorStatus k v = UNSAFE
  /\ is_nan (getSafeRangePercentage k v) = true
  /\ ((k, v) ∈ es -> overall (calculateWaterQuality es) = UNSAFE
                     /\ isPotable (calculateWaterQuality es) = false).
Proof.
  intros Ht Hv. destruct (nan_status_and_gauge k t v Ht Hv) as [Hs Hp].
  split; [exact Hs|]. split; [now rewrite Hp|]. intros Hin.
  rewrite calculateWaterQuality_unfold. cbn [overall isPotable].
  assert (E : fold_left worst (classified_statuses es) SAFE = UNSAFE).
  { apply fold_worst_UNSAFE. right. apply classified_statuses_elem.
    exists k, v. split; [done|]. split; [|done].
    now apply (classified_table k t). }
  now rewrite E.
Qed.

Lemma nan_reading_unsafe_witness :
  getSensorStatus "tds" nan = UNSAFE
  /\ isPotable (calculateWaterQuality [("ph", 7.2%float); ("tds", nan)])
     = false.
Proof.
  destruct (nan_reading_unsafe "tds" _ nan [("ph", 7.2%float); ("tds", nan)]
              eq_refl eq_refl) as (H1 & _ & H2).
  split; [exact H1|]. apply H2. right. left.
Defined.



(** X7.  For each kind of the table and every reading that is not NaN,
    infinite ones included, the gauge position is a finite number between 0
    and 100. *)
Theorem gauge_between_0_and_100 (k : string) (t : Threshold) (v : float) :
  SENSOR_THRESHOLDS !! k = Some t -> is_nan v = false ->
  JS.isFinite (getSafeRangePercentage k v) = true
  /\ (0 <= F2Q (getSafeRangePercentage k v) <= 100)%Q.
Proof.
  intros Ht Hv. apply gauge_finite_bounds; [|exact Hv].
  destruct (SENSOR_THRESHOLDS_keys k t Ht) as [-> | [-> | [-> | ->]]];
    reflexivity.
Qed.

Lemma gauge_between_0_and_100_witness :
  (0 <= F2Q (getSafeRangePercentage "temperature" infinity) <= 100)%Q.
Proof.
  apply (gauge_between_0_and_100 "temperature" _ infinity eq_refl eq_refl).
Defined.

(** X8.  For ph the gauge is 0 whenever a finite reading is not Safe. *)
Theorem ph_gauge_zero_unless_safe (v : float) :
  JS.isFinite v = true -> getSensorStatus "ph" v <> SAFE ->
  getSafeRangePercentage "ph" v = 0%float.
Proof.
  intros Hv Hs. rewrite getSafeRangePercentage_ph.
  apply two_sided_clamped; [exact Hv|].
  pose proof Hv as [Hn _]%is_finite_spec.
  rewrite getSensorStatus_ph in Hs.
  rewrite !leb_rank in Hs by (assumption || reflexivity).
  destruct (Z.leb_spec (rank 6.5) (rank v)),
    (Z.leb_spec (rank v) (rank 8.5)); cbn [andb] in Hs;
    first [now destruct Hs | left; lia | right; lia].
Qed.

Lemma ph_gauge_zero_unless_safe_witness :
  getSafeRangePercentage "ph" 8.7 = 0%float.
Proof.
  apply (ph_gauge_zero_unless_safe 8.7 eq_refl). discriminate.
Defined.

(** X9.  For turbidity and tds the gauge is full, 100, whenever a reading
    that is not NaN is Unsafe. *)
Theorem upper_bounded_unsafe_gauge_full (k : string) (v : float) :
  k = "turbidity" \/ k = "tds" ->
  is_nan v = false -> getSensorStatus k v = UNSAFE ->
  getSafeRangePercentage k v = 100%float.
Proof.
  intros [-> | ->] Hn Hs.
  - rewrite getSensorStatus_turbidity in Hs.
    change (getSafeRangePercentage "turbidity" v)
      with (clamp 0 100 ((v / 5) * 100)).
    apply (one_sided_clamped 5 v _ _ eq_refl Hn).
    rewrite !leb_rank in Hs by (assumption || reflexivity).
    destruct (Z.leb_spec (rank v) (rank 4)); [discriminate Hs|].
    destruct (Z.leb_spec (rank v) (rank 5)); [discriminate Hs | lia].
  - rewrite getSensorStatus_tds in Hs.
    change (getSafeRangePercentage "tds" v)
      with (clamp 0 100 ((v / 500) * 100)).
    apply (one_sided_clamped 500 v _ _ eq_refl Hn).
    rewrite !leb_rank in Hs by (assumption || reflexivity).
    destruct (Z.leb_spec (rank v) (rank 400)); [discriminate Hs|].
    destruct (Z.leb_spec (rank v) (rank 500)); [discriminate Hs | lia].
Qed.

Lemma upper_bounded_unsafe_gauge_full_witness :
  getSafeRangePercentage "tds" 612.5 = 100%float.
Proof.
  apply (upper_bounded_unsafe_gauge_full "tds" 612.5);
    [right|..]; reflexivity.
Defined.

(** X10.  For the kinds on the one-sided branch (turbidity, tds and
    temperature) the gauge is 0 for every reading at or below zero,
    negative readings included. *)
Theorem one_sided_gauge_zero (k : string) (t : Threshold) (v : float) :
  SENSOR_THRESHOLDS !! k = Some t -> k <> "ph" ->
  (v <=? 0)%float = true ->
  getSafeRangePercentage k v = 0%float.
Proof.
  intros Ht Hk Hle. destruct (leb_true_not_nan _ _ Hle) as [Hn _].
  rewrite (getSafeRangePercentage_one_sided k t v Ht Hk).
  rewrite leb_rank in Hle by (assumption || reflexivity).
  apply Z.leb_le in Hle. change (rank 0) with 0 in Hle.
  assert (Hmax : exists mh eh, Prim2SF (max t) = S754_finite false mh eh).
  { destruct (SENSOR_THRESHOLDS_keys k t Ht) as [-> | [-> | [-> | ->]]];
      injection Ht as <-; eexists _, _; vm_compute; reflexivity. }
  destruct Hmax as (mh & eh & Emax).
  apply clamp_low. rewrite leb_rank; [apply Z.leb_le | | reflexivity].
  - change (rank 0) with 0. now apply (one_sided_below (max t) v mh eh).
  - apply one_sided_not_nan; [|exact Hn]. unfold finite_nonzero.
    now rewrite Emax.
Qed.

Lemma one_sided_gauge_zero_witness :
  getSafeRangePercentage "turbidity" (-3) = 0%float.
Proof.
  apply (one_sided_gauge_zero "turbidity" _ (-3) eq_refl);
    [discriminate | reflexivity].
Defined.


Lemma Math_min_100_id (p : float) :
  is_nan p = true \/ (is_nan p = false /\ rank p <= rank 100) ->
  JS.Math_min p 100 = p.
Proof.
  intros [Hp | [Hp Hle]].
  - now rewrite (is_nan_inv p Hp).
  - unfold JS.Math_min. rewrite Hp. change (is_nan 100) with false.
    cbn [orb]. rewrite !ltb_rank by (assumption || reflexivity).
    destruct (Z.ltb_spec (rank p) (rank 100)); [reflexivity|].
    destruct (Z.ltb_spec (rank 100) (rank p)); [lia|].
    destruct (get_sign p); [reflexivity|].
    assert (0 < rank 100) by (vm_compute; reflexivity).
    apply rank_inj; trivial; lia.
Qed.

(** X11.  The sensors page passes [Math.min(percentage, 100)] to its
    progress bar: that is the gauge position itself, for every name and
    every value. *)
Theorem progress_value_is_gauge (k : string) (v : float) :
  JS.Math_min (getSafeRangePercentage k v) 100 = getSafeRangePercentage k v.
Proof.
  apply Math_min_100_id.
  destruct (is_nan v) eqn:Hv.
  - destruct (SENSOR_THRESHOLDS !! k) as [t|] eqn:Ht.
    + left. now rewrite (proj2 (nan_status_and_gauge k t v Ht Hv)).
    + rewrite (getSafeRangePercentage_unknown k v Ht).
      destruct (JS.inherited k); [now left | right].
      split; [reflexivity | vm_compute; discriminate].
  - destruct (JS.inherited k) eqn:Hk.
    + left. destruct (SENSOR_THRESHOLDS !! k) as [t|] eqn:Ht.
      * destruct (SENSOR_THRESHOLDS_keys k t Ht) as [-> | [-> | [-> | ->]]];
          discriminate Hk.
      * now rewrite (getSafeRangePercentage_unknown k v Ht), Hk.
    + right. destruct (percentage_bounds k v Hk Hv) as [H0 H1].
      destruct (leb_true_not_nan _ _ H1) as [Hp _]. split; [exact Hp|].
      rewrite leb_rank in H1 by (assumption || reflexivity).
      now apply Z.leb_le.
Qed.

Lemma two_sided_monotone (lo hi lo' hi' v1 v2 : float) :
  rank lo' <= rank lo -> rank lo <= rank hi -> rank hi <= rank hi' ->
  is_nan lo = false -> is_nan hi = false ->
  is_nan lo' = false -> is_nan hi' = false ->
  (v1 <=? v2)%float = true ->
  let status v :=
    if (lo <=? v)%float && (v <=? hi)%float then SAFE
    else if (lo' <=? v)%float && (v <=? hi')%float then WARNING
    else UNSAFE in
  ((hi <=? v1)%float = true -> (severity (status v1) <= severity (status v2))%nat)
  /\ ((v2 <=? lo)%float = true ->
      (severity (status v2) <= severity (status v1))%nat).
Proof.
  intros H1 H2 H3 Nlo Nhi Nlo' Nhi' H. cbv zeta.
  destruct (leb_true_not_nan _ _ H) as [N1 N2].
  rewrite !leb_rank by assumption.
  rewrite leb_rank in H by assumption. apply Z.leb_le in H.
  split; intros Hb; apply Z.leb_le in Hb;
    destruct (Z.leb_spec (rank lo) (rank v1)),
      (Z.leb_spec (rank v1) (rank hi)),
      (Z.leb_spec (rank lo') (rank v1)),
      (Z.leb_spec (rank v1) (rank hi')),
      (Z.leb_spec (rank lo) (rank v2)),
      (Z.leb_spec (rank v2) (rank hi)),
      (Z.leb_spec (rank lo') (rank v2)),
      (Z.leb_spec (rank v2) (rank hi')); cbn; lia.
Qed.

(** X12.  For ph and temperature the severity of the status never decreases
    as a reading moves away from the safe band: it is monotone in the
    reading above [max], and antitone below [min]. *)
Theorem severity_away_from_band (k : string) (t : Threshold) (v1 v2 : float) :
  k = "ph" \/ k = "temperature" ->
  SENSOR_THRESHOLDS !! k = Some t ->
  (v1 <=? v2)%float = true ->
  ((max t <=? v1)%float = true ->
     (severity (getSensorStatus k v1) <= severity (getSensorStatus k v2))%nat)
  /\ ((v2 <=? min t)%float = true ->
      (severity (getSensorStatus k v2) <= severity (getSensorStatus k v1))%nat).
Proof.
  intros [-> | ->] Ht H; injection Ht as <-; cbn [min max].
  - rewrite !getSensorStatus_ph.
    apply (two_sided_monotone 6.5 8.5 6 9); trivial;
      vm_compute; discriminate.
  - rewrite !getSensorStatus_temperature.
    apply (two_sided_monotone 15 25 10 30); trivial;
      vm_compute; discriminate.
Qed.

Lemma severity_away_from_band_witness :
  Nat.le (severity (getSensorStatus "ph" 8.7))
         (severity (getSensorStatus "ph" 9.4)).
Proof.
  apply (severity_away_from_band "ph" _ 8.7 9.4 (or_introl eq_refl) eq_refl);
    reflexivity.
Defined.

End StatusAndGauge.

(** ** Tank label *)

Section TankLevel.
Local Open Scope Z_scope.

(** X13.  The label of the tank follows the level: Full from 75 up, Good
    from 50 up to 75, Low from 25 up to 50, Critical below 25, for every
    finite level (levels above 100 or below 0 included). *)
Theorem tank_label_bands (level : float) :
  JS.isFinite level = true ->
  let x := F2Q level in
  let l := label (getLevelStatus level) in
  (l = "Full" <-> 75 <= x)%Q /\ (l = "Good" <-> 50 <= x < 75)%Q
  /\ (l = "Low" <-> 25 <= x < 50)%Q /\ (l = "Critical" <-> x < 25)%Q.
Proof.
  intros Hv. cbv zeta. unfold getLevelStatus, JS.geb.
  pose proof (leb_const_l 75 75%Q level eq_refl
                ltac:(vm_compute; reflexivity) Hv) as H1.
  pose proof (leb_const_l 50 50%Q level eq_refl
                ltac:(vm_compute; reflexivity) Hv) as H2.
  pose proof (leb_const_l 25 25%Q level eq_refl
                ltac:(vm_compute; reflexivity) Hv) as H3.
  generalize dependent (F2Q level). intros x H1 H2 H3.
  destruct (75 <=? level)%float, (50 <=? level)%float,
    (25 <=? level)%float; cbn [label];
    (split; [|split; [|split]]); (split; intros E);
    first [discriminate E | reflexivity | lra | exfalso; lra].
Qed.

Lemma tank_label_bands_witness :
  (label (getLevelStatus 75) = "Full" <-> 75 <= F2Q 75)%Q.
Proof. apply (tank_label_bands 75 eq_refl). Defined.

(** X14.  A higher level never gets an emptier label. *)
Theorem tank_label_monotone (l1 l2 : float) :
  (l1 <=? l2)%float = true ->
  (fullness (label (getLevelStatus l1))
   <= fullness (label (getLevelStatus l2)))%nat.
Proof.
  intros H. destruct (leb_true_not_nan _ _ H) as [N1 N2].
  unfold getLevelStatus, JS.geb.
  rewrite !leb_rank by (assumption || reflexivity).
  rewrite leb_rank in H by assumption. apply Z.leb_le in H.
  assert (rank 25 <= rank 50) by (vm_compute; discriminate).
  assert (rank 50 <= rank 75) by (vm_compute; discriminate).
  destruct (Z.leb_spec (rank 75) (rank l1)), (Z.leb_spec (rank 50) (rank l1)),
    (Z.leb_spec (rank 25) (rank l1)), (Z.leb_spec (rank 75) (rank l2)),
    (Z.leb_spec (rank 50) (rank l2)), (Z.leb_spec (rank 25) (rank l2));
    cbn; lia.
Qed.

Lemma tank_label_monotone_witness :
  Nat.le (fullness (label (getLevelStatus 24.9)))
         (fullness (label (getLevelStatus 50))).
Proof. apply (tank_label_monotone 24.9 50). reflexivity. Defined.

End TankLevel.

(** ** Pages of the history view *)

Section History.
Local Open Scope Z_scope.

Lemma take_plus {A : Type} (l : list A) (n m : nat) :
  take (n + m) l = take n l ++ take m (drop n l).
Proof.
  revert l. induction n as [|n IH]; intros [|x l]; cbn; try reflexivity.
  - now rewrite take_nil.
  - now rewrite IH.
Qed.

(** From page 1 on, a page is the next five logs after those of the pages
    before it. *)
Lemma paginatedLogs_take_drop {A : Type} (l : list A) (p : Z) :
  1 <= p ->
  paginatedLogs l p
  = take 5 (drop (5 * Z.to_nat (p - 1)) l).
Proof.
  intros Hp. unfold paginatedLogs, JSArray.slice, logsPerPage.
  destruct (Z.ltb_spec ((p - 1) * 5) 0); [lia|].
  destruct (Z.ltb_spec (p * 5) 0); [lia|].
  set (len := Z.of_nat (length l)).
  assert (Hlen : Z.of_nat (length l) = len) by reflexivity.
  clearbody len.
  destruct (Z.le_gt_cases ((p - 1) * 5) len) as [Hle|Hgt].
  - rewrite (Z.min_l ((p - 1) * 5) len) by lia.
    replace (Z.to_nat ((p - 1) * 5)) with (5 * Z.to_nat (p - 1))%nat by lia.
    set (d := drop (5 * Z.to_nat (p - 1)) l).
    assert (Hd : length d = Z.to_nat (len - (p - 1) * 5)).
    { unfold d. rewrite length_drop. lia. }
    clearbody d.
    destruct (Z.le_gt_cases (p * 5) len).
    + rewrite (Z.min_l (p * 5) len) by lia.
      now replace (Z.to_nat (p * 5 - (p - 1) * 5)) with 5%nat by lia.
    + rewrite (Z.min_r (p * 5) len) by lia.
      rewrite <- Hd. rewrite take_ge by lia.
      rewrite take_ge by lia. reflexivity.
  - rewrite (Z.min_r ((p - 1) * 5) len) by lia.
    rewrite (Z.min_r (p * 5) len) by lia.
    rewrite !drop_ge by lia. now rewrite !take_nil.
Qed.

Lemma totalPages_bounds {A : Type} (l : list A) :
  let n := Z.of_nat (length l) in
  0 <= totalPages l /\ 5 * (totalPages l - 1) < n <= 5 * totalPages l.
Proof.
  cbv zeta. unfold totalPages, logsPerPage.
  set (n := Z.of_nat (length l)). assert (0 <= n) by lia. clearbody n.
  pose proof (Z.div_mod (n + 5 - 1) 5 ltac:(lia)) as E.
  pose proof (Z.mod_pos_bound (n + 5 - 1) 5 ltac:(lia)) as B.
  set (q := (n + 5 - 1) `div` 5) in *. clearbody q. lia.
Qed.

Lemma concat_pages {A : Type} (l : list A) (n : nat) :
  concat (map (paginatedLogs l) (map (fun i => Z.of_nat (S i)) (seq 0 n)))
  = take (5 * n) l.
Proof.
  induction n as [|n IH]; [reflexivity|].
  rewrite seq_S, !map_app, concat_app, IH. cbn [map concat Nat.add].
  rewrite app_nil_r, paginatedLogs_take_drop by lia.
  replace (Z.to_nat (Z.of_nat (S n) - 1)) with n by lia.
  replace (5 * S n)%nat with (5 * n + 5)%nat by lia.
  now rewrite take_plus.
Qed.

(** X15.  The pages [1 .. totalPages] hold every filtered log once, in
    order: laid end to end they are the filtered list. *)
Theorem pages_cover_filtered_logs {A : Type} (l : list A) :
  concat (map (paginatedLogs l) (pageNumbers (totalPages l))) = l.
Proof.
  unfold pageNumbers. rewrite concat_pages.
  destruct (totalPages_bounds l) as [H0 [_ H]].
  apply take_ge. lia.
Qed.

(** X16.  On each page from 1 to [totalPages] the caption
    "Showing a to b" counts the logs of the page: the page holds
    [b - a + 1] logs, between one and five, and its [i]-th log is the
    filtered log number [a + i] (counting from one). *)
Theorem page_matches_caption {A : Type} (l : list A) (p : Z) :
  1 <= p <= totalPages l ->
  let a := showingFrom p in
  let b := showingTo l p in
  Z.of_nat (length (paginatedLogs l p)) = b - a + 1
  /\ 1 <= b - a + 1 <= logsPerPage
  /\ forall i : nat,
       paginatedLogs l p !! i
       = if decide (Z.of_nat i < b - a + 1)
         then l !! Z.to_nat (a - 1 + Z.of_nat i) else None.
Proof.
  intros [H1 H2]. cbv zeta.
  destruct (totalPages_bounds l) as [H0 [Hlo Hhi]].
  rewrite paginatedLogs_take_drop by lia.
  unfold showingFrom, showingTo, logsPerPage.
  set (len := Z.of_nat (length l)) in *.
  assert (Hlen : length l = Z.to_nat len) by lia.
  assert (L : Z.of_nat (length (take 5 (drop (5 * Z.to_nat (p - 1)) l)))
              = Z.min (p * 5) len - ((p - 1) * 5 + 1) + 1).
  { rewrite length_take, length_drop. lia. }
  split; [exact L|]. split; [lia|].
  intros i. destruct (decide _) as [Hi|Hi].
  - rewrite lookup_take_lt by lia. rewrite lookup_drop. f_equal. lia.
  - apply lookup_ge_None. lia.
Qed.

Lemma page_matches_caption_witness :
  Z.of_nat (length (paginatedLogs [1; 2; 3; 4; 5; 6; 7]%nat 2))
  = showingTo [1; 2; 3; 4; 5; 6; 7]%nat 2 - showingFrom 2 + 1.
Proof.
  apply (page_matches_caption [1; 2; 3; 4; 5; 6; 7]%nat 2).
  vm_compute. split; discriminate.
Defined.

Lemma page_empty_iff_beyond_last_aux {A : Type} (l : list A) (p : Z) :
  1 <= p ->
  paginatedLogs l p = [] <-> totalPages l < p.
Proof.
  intros Hp. destruct (totalPages_bounds l) as [H0 [Hlo Hhi]].
  rewrite paginatedLogs_take_drop by lia.
  rewrite <- length_zero_iff_nil, length_take, length_drop.
  set (len := Z.of_nat (length l)) in *.
  assert (Hlen : length l = Z.to_nat len) by lia.
  split; intros H; lia.
Qed.

(** X17.  A page from 1 on is empty exactly when its number is beyond
    [totalPages]; a page number kept while the filters shrink the list
    shows no log although some match. *)
Theorem page_empty_iff_beyond_last {A : Type} (l : list A) (p : Z) :
  1 <= p ->
  paginatedLogs l p = [] <-> totalPages l < p.
Proof. apply page_empty_iff_beyond_last_aux. Qed.

Lemma page_empty_iff_beyond_last_witness :
  paginatedLogs [1; 2; 3; 4; 5; 6; 7]%nat 3 = []
  <-> totalPages [1; 2; 3; 4; 5; 6; 7]%nat < 3.
Proof.
  apply (page_empty_iff_beyond_last [1; 2; 3; 4; 5; 6; 7]%nat 3).
  discriminate.
Defined.

Lemma click_in_range (total p : Z) (b : PageButton) :
  1 <= p <= total -> 1 <= click total p b <= total.
Proof. destruct b; unfold click, previousPage, nextPage; lia. Qed.

Lemma clicks_in_range (total : Z) (bs : list PageButton) (p : Z) :
  1 <= p <= total -> 1 <= clicks total p bs <= total.
Proof.
  unfold clicks. revert p. induction bs as [|b bs IH]; intros p Hp.
  - exact Hp.
  - cbn [fold_left]. apply IH. now apply click_in_range.
Qed.

(** X18.  Starting from page 1 of a non-empty filtered list, no sequence
    of clicks on the two page buttons leaves the pages [1 .. totalPages],
    and the page shown always holds a log. *)
Theorem page_buttons_stay_on_pages {A : Type} (l : list A)
    (bs : list PageButton) :
  l <> [] ->
  let p := clicks (totalPages l) 1 bs in
  1 <= p <= totalPages l /\ paginatedLogs l p <> [].
Proof.
  intros Hl. cbv zeta.
  destruct (totalPages_bounds l) as [H0 [Hlo Hhi]].
  assert (0 < length l)%nat by (destruct l; [congruence | cbn; lia]).
  assert (Hp : 1 <= clicks (totalPages l) 1 bs <= totalPages l)
    by (apply clicks_in_range; lia).
  split; [exact Hp|].
  rewrite page_empty_iff_beyond_last_aux by lia. lia.
Qed.

Lemma page_buttons_stay_on_pages_witness :
  1 <= clicks (totalPages [1; 2; 3; 4; 5; 6; 7]%nat) 1
              [Next; Next; Previous; Next]
    <= totalPages [1; 2; 3; 4; 5; 6; 7]%nat.
Proof.
  apply (page_buttons_stay_on_pages [1; 2; 3; 4; 5; 6; 7]%nat
           [Next; Next; Previous; Next]).
  discriminate.
Defined.

End History.

(** ** Toggles of the system controls *)

Section SystemControls.

Lemma activeCount_insert_fresh (cs : gmap string bool) (k : string)
    (b : bool) :
  cs !! k = None ->
  activeCount (<[k := b]> cs)
  = ((if b then 1 else 0) + activeCount cs)%nat.
Proof.
  intros Hk. unfold activeCount.
  rewrite (map_to_list_insert cs k b Hk). cbn [fmap list_fmap snd].
  rewrite filter_cons. destruct b; cbn.
  - destruct (decide (true = true)); [reflexivity | congruence].
  - destruct (decide (false = true)); [congruence | reflexivity].
Qed.

Lemma activeCount_insert (cs : gmap string bool) (k : string)
    (b0 b : bool) :
  cs !! k = Some b0 ->
  (activeCount (<[k := b]> cs) + (if b0 then 1 else 0)
   = activeCount cs + (if b then 1 else 0))%nat.
Proof.
  intros Hk.
  rewrite <- (insert_delete_eq cs k b).
  rewrite <- (insert_delete_id cs k b0 Hk) at 2.
  rewrite !activeCount_insert_fresh by apply lookup_delete_eq.
  lia.
Qed.

Lemma activeCount_le_size (cs : gmap string bool) :
  (activeCount cs <= size cs)%nat.
Proof.
  unfold activeCount. etrans; [apply length_filter|].
  rewrite length_fmap. unfold size, map_size.
  now rewrite length_map_to_list.
Qed.

Lemma handleToggle_own (cs : gmap string bool) (k : string) (b : bool) :
  cs !! k = Some b ->
  handleToggle cs k = (<[k := negb b]> cs, (k, negb b)).
Proof. intros H. unfold handleToggle, controlStates_get. now rewrite H. Qed.

(** X19.  Toggling a control that has a state flips that state, leaves the
    other controls alone, tells the parent the new state, and moves the
    count of active controls by one, up when the control was off and down
    when it was on. *)
Theorem toggle_flips_one_control (cs : gmap string bool) (k : string)
    (b : bool) :
  cs !! k = Some b ->
  let r := handleToggle cs k in
  r.1 !! k = Some (negb b)
  /\ (forall j, j <> k -> r.1 !! j = cs !! j)
  /\ r.2 = (k, negb b)
  /\ (if b then S (activeCount r.1) = activeCount cs
      else activeCount r.1 = S (activeCount cs)).
Proof.
  intros Hk. cbv zeta. rewrite (handleToggle_own cs k b Hk). cbn [fst snd].
  split; [apply lookup_insert_eq|].
  split; [intros j Hj; now apply lookup_insert_ne|].
  split; [reflexivity|].
  pose proof (activeCount_insert cs k b (negb b) Hk) as E.
  destruct b; cbn in E |- *; lia.
Qed.

Lemma toggle_flips_one_control_witness :
  activeCount
    (handleToggle (initialControlStates
                     {| filterStatus := Some true; uvStatus := Some false;
                        pumpStatus := None |}) "uv").1
  = S (activeCount (initialControlStates
                      {| filterStatus := Some true; uvStatus := Some false;
                         pumpStatus := None |})).
Proof.
  apply (toggle_flips_one_control
           (initialControlStates
              {| filterStatus := Some true; uvStatus := Some false;
                 pumpStatus := None |}) "uv" false).
  reflexivity.
Defined.

(** With no update pending, the updater applied to the rendered state is
    the next state [handleToggle] gives. *)
Lemma handleToggle_updater_rendered (cs : gmap string bool) (k : string) :
  handleToggle_updater cs k cs = (handleToggle cs k).1.
Proof. reflexivity. Qed.

(** X20.  Toggling the same control twice: when the component renders again
    between the two toggles, the second undoes the first and the controls
    are back in the state they had; when both toggles come from the same
    render, both write the same value, and the state is that after a
    single toggle, not the one the controls had. *)
Theorem toggle_twice (cs : gmap string bool) (k : string) :
  is_Some (cs !! k) ->
  toggles cs [k; k] = cs
  /\ toggles_in_one_render cs [k; k] = toggles cs [k]
  /\ toggles cs [k] <> cs.
Proof.
  intros [b Hk]. unfold toggles, toggles_in_one_render. cbn [fold_left].
  rewrite (handleToggle_own cs k b Hk). cbn [fst].
  rewrite (handleToggle_own _ k (negb b)) by apply lookup_insert_eq.
  cbn [fst]. unfold handleToggle_updater, controlStates_get. rewrite Hk.
  rewrite !insert_insert_eq, negb_involutive.
  split; [now apply insert_id|]. split; [reflexivity|].
  intros E. apply (f_equal (fun m => m !! k)) in E.
  rewrite lookup_insert_eq, Hk in E. now destruct b.
Qed.

Lemma toggle_twice_witness :
  toggles (initialControlStates
             {| filterStatus := None; uvStatus := None;
                pumpStatus := Some false |}) ["pump"; "pump"]
  = initialControlStates
      {| filterStatus := None; uvStatus := None; pumpStatus := Some false |}.
Proof.
  apply (toggle_twice
           (initialControlStates
              {| filterStatus := None; uvStatus := None;
                 pumpStatus := Some false |}) "pump").
  eexists. reflexivity.
Defined.

Lemma initialControlStates_dom (i : InitialStatus) :
  dom (initialControlStates i) = list_to_set CONTROLS.
Proof.
  unfold initialControlStates, CONTROLS. rewrite !dom_insert_L, dom_empty_L.
  cbn. set_solver.
Qed.

Lemma toggles_dom (cs : gmap string bool) (ks : list string) :
  Forall (fun k => k ∈ CONTROLS) ks ->
  dom cs = list_to_set CONTROLS ->
  dom (toggles cs ks) = list_to_set CONTROLS.
Proof.
  unfold toggles. intros Hks. revert cs.
  induction Hks as [|k ks Hk _ IH]; intros cs Hd; [exact Hd|].
  cbn [fold_left]. apply IH. unfold handleToggle. cbn [fst].
  rewrite dom_insert_L, Hd.
  apply subseteq_union_1_L, singleton_subseteq_l.
  now apply elem_of_list_to_set.
Qed.

(** X21.  From any initial status and after any sequence of toggles of
    the three controls, the controls that have a state are exactly those
    of [CONTROLS], and the badge never counts more active controls than
    [CONTROLS.length]. *)
Theorem active_count_at_most_controls (i : InitialStatus)
    (ks : list string) :
  Forall (fun k => k ∈ CONTROLS) ks ->
  let cs := toggles (initialControlStates i) ks in
  dom cs = list_to_set CONTROLS
  /\ (activeCount cs <= length CONTROLS)%nat.
Proof.
  intros Hks. cbv zeta.
  pose proof (toggles_dom _ ks Hks (initialControlStates_dom i)) as Hd.
  split; [exact Hd|].
  etrans; [apply activeCount_le_size|].
  rewrite <- size_dom, Hd. vm_compute. lia.
Qed.

Lemma active_count_at_most_controls_witness :
  (activeCount
     (toggles (initialControlStates
                 {| filterStatus := None; uvStatus := Some false;
                    pumpStatus := None |}) ["uv"; "pump"; "uv"])
   <= length CONTROLS)%nat.
Proof.
  apply (active_count_at_most_controls
           {| filterStatus := None; uvStatus := Some false;
              pumpStatus := None |} ["uv"; "pump"; "uv"]).
  repeat constructor.
Defined.

End SystemControls.
